(** * Allen projection XML extractor: a shallow embedding

    This development embeds [allen_xml_to_visual-areas_csv.py] (the
    projection extractor of the repository) and proves properties of
    [infer_injection_hemisphere], [extract_projection_data] and
    [process_xml_files].

    Conventions of the embedding:
    - Python [str] is [string]; only ASCII case and white space are
      interpreted, every other byte is left alone.
    - Python [float] is the primitive binary64 type [float]; [float(s)]
      and [format(x, ".2E")] are executable functions of this file.
    - A Python [dict] is an association list in insertion order
      ([pydict]), since iteration order decides the order of a float sum
      and of the CSV columns.
    - Exceptions are values of [exn]; code that can raise returns a
      [result]; code that also prints or touches files runs in the
      state-and-error monad [M] over a [world]. *)

From Stdlib Require Import ZArith Floats String Ascii List DecimalString Lia.
From stdpp Require Import base strings list option gmap.
Import ListNotations.

Local Open Scope string_scope.

(** ** Python strings *)

Module PyStr.

(** [str.isspace] on ASCII: TAB..CR, FS..US and the blank. *)
Definition is_space (c : ascii) : bool :=
  let n := nat_of_ascii c in
  ((9 <=? n)%nat && (n <=? 13)%nat) || ((28 <=? n)%nat && (n <=? 32)%nat).

Definition is_digit (c : ascii) : bool :=
  let n := nat_of_ascii c in (48 <=? n)%nat && (n <=? 57)%nat.

Definition lower_ascii (c : ascii) : ascii :=
  let n := nat_of_ascii c in
  if (65 <=? n)%nat && (n <=? 90)%nat then ascii_of_nat (n + 32) else c.

Fixpoint lstrip (cs : list ascii) : list ascii :=
  match cs with
  | c :: r => if is_space c then lstrip r else cs
  | [] => []
  end.

Definition strip_chars (cs : list ascii) : list ascii :=
  rev (lstrip (rev (lstrip cs))).

(** [s.strip()] *)
Definition strip (s : string) : string :=
  string_of_list_ascii (strip_chars (list_ascii_of_string s)).

(** [s.lower()] *)
Definition lower (s : string) : string :=
  string_of_list_ascii (map lower_ascii (list_ascii_of_string s)).

(** [s.endswith(suffix)] *)
Definition endswith (s suffix : string) : bool :=
  let n := String.length s in
  let k := String.length suffix in
  (k <=? n)%nat && String.eqb (substring (n - k) k s) suffix.

(** [str(n)] for an [int]. *)
Definition of_Z (z : Z) : string := NilZero.string_of_int (Z.to_int z).

End PyStr.

(** ** Python values stored in the area catalog

    The catalog maps area names to structure identifiers.  The script's
    own catalog holds [int]s while XML text is [str]; the two are never
    equal under [==], which matters wherever the code compares them
    without [str(...)]. *)

Inductive pyval :=
| PyInt (z : Z)
| PyStr (s : string).

(** [str(v)] *)
Definition py_str (v : pyval) : string :=
  match v with
  | PyInt z => PyStr.of_Z z
  | PyStr s => s
  end.

(** [a == b] *)
Definition py_eq (a b : pyval) : bool :=
  match a, b with
  | PyInt x, PyInt y => Z.eqb x y
  | PyStr x, PyStr y => String.eqb x y
  | _, _ => false
  end.

(** [x in vs] for a sequence [vs] *)
Definition py_in (x : pyval) (vs : list pyval) : bool := existsb (py_eq x) vs.

(** ** Exceptions and the error monad *)

Inductive exn :=
| KeyError (key : string)
| ValueError (text : string)          (* float() of text that is no number *)
| TypeError                           (* float(None) *)
| AttributeError                      (* None.strip() *)
| ParseError (path : string)          (* ET.parse of a file that is not XML *)
| FileNotFoundError (path : string)
| NotADirectoryError (path : string)
| IsADirectoryError (path : string).

Inductive result (A : Type) :=
| Ok (a : A)
| Raise (e : exn).
Arguments Ok {A} a.
Arguments Raise {A} e.

Global Instance result_ret : MRet result := @Ok.
Global Instance result_bind : MBind result := λ A B f m,
  match m with
  | Ok a => f a
  | Raise e => Raise e
  end.

(** A [for] loop over [l] whose body may raise; [s] is the state the loop
    mutates.  A [continue] is a body that returns the state unchanged. *)
Fixpoint for_each {A S : Type} (body : S → A → result S) (s : S) (l : list A)
  : result S :=
  match l with
  | [] => Ok s
  | x :: r => s' ← body s x; for_each body s' r
  end.

(** [map] with a function that may raise, left to right. *)
Fixpoint map_result {A B : Type} (f : A → result B) (l : list A)
  : result (list B) :=
  match l with
  | [] => Ok []
  | x :: r => y ← f x; ys ← map_result f r; Ok (y :: ys)
  end.

(** ** Python floats: [float(s)], [format(x, ".2E")] and [sum] *)

Module PyFloat.
Import PyStr.
Local Open Scope Z_scope.

Definition digit_val (c : ascii) : Z := Z.of_nat (nat_of_ascii c) - 48.

(** [digitpart ::= digit (["_"] digit)*]: reads digits into the
    accumulator [acc], counting them in [n]; an underscore is accepted
    only between two digits. *)
Fixpoint scan_digits (cs : list ascii) (acc : Z) (n : nat)
  : Z * nat * list ascii :=
  match cs with
  | c :: r =>
      if is_digit c then scan_digits r (10 * acc + digit_val c) (S n)
      else if Ascii.eqb c "_" then
        match n, r with
        | S _, d :: _ => if is_digit d then scan_digits r acc n else (acc, n, cs)
        | _, _ => (acc, n, cs)
        end
      else (acc, n, cs)
  | [] => (acc, n, cs)
  end.

Definition scan_sign (cs : list ascii) : bool * list ascii :=
  match cs with
  | "+"%char :: r => (false, r)
  | "-"%char :: r => (true, r)
  | _ => (false, cs)
  end.

(** [exponent ::= ("e" | "E") [sign] digitpart], or nothing; whatever
    follows the mantissa must be consumed entirely. *)
Definition scan_exponent (cs : list ascii) : option Z :=
  match cs with
  | [] => Some 0
  | c :: r =>
      if Ascii.eqb (lower_ascii c) "e" then
        let '(neg, r1) := scan_sign r in
        match scan_digits r1 0 0 with
        | (e, S _, []) => Some (if neg then - e else e)
        | _ => None
        end
      else None
  end.

(** [number ::= [digitpart] "." digitpart | digitpart ["."]] followed by
    an optional exponent.  The result [(m, e)] stands for [m * 10^e]. *)
Definition scan_number (cs : list ascii) : option (Z * Z) :=
  let '(m1, n1, r1) := scan_digits cs 0 0 in
  let '(m, nf, r2) :=
    match r1 with
    | "."%char :: r => scan_digits r m1 0
    | _ => (m1, 0%nat, r1)
    end in
  match (n1 + nf)%nat with
  | O => None
  | S _ => match scan_exponent r2 with
           | Some e => Some (m, e - Z.of_nat nf)
           | None => None
           end
  end.

(** Nearest integer to [p / q], ties to even ([0 <= p], [0 < q]). *)
Definition rne (p q : Z) : Z :=
  let n := p / q in
  match 2 * (p mod q) ?= q with
  | Lt => n
  | Gt => n + 1
  | Eq => if Z.even n then n else n + 1
  end.

(** The fraction [p / (q * 2^k)]. *)
Definition scale2 (p q k : Z) : Z * Z :=
  if 0 <=? k then (p, q * 2 ^ k) else (p * 2 ^ (- k), q).

(** The fraction [p / (q * 10^k)]. *)
Definition scale10 (p q k : Z) : Z * Z :=
  if 0 <=? k then (p, q * 10 ^ k) else (p * 10 ^ (- k), q).

(** The binary64 number nearest to [p / q] (ties to even, overflow to
    infinity): the quotient is scaled to a 53-bit integer, or to a
    multiple of [2^-1074] in the subnormal range, rounded once, and
    rescaled exactly. *)
Definition binary64_of_ratio (p q : Z) : float :=
  if p =? 0 then 0%float else
  let l := Z.log2 p - Z.log2 q in
  let '(pl, ql) := scale2 p q l in
  let e2 := if ql <=? pl then l else l - 1 in
  let k := Z.max (e2 - 52) (-1074) in
  let '(pk, qk) := scale2 p q k in
  Z.ldexp (PrimFloat.of_uint63 (Uint63.of_Z (rne pk qk))) k.

Definition decimal_value (m e : Z) : float :=
  if 0 <=? e then binary64_of_ratio (m * 10 ^ e) 1
  else binary64_of_ratio m (10 ^ (- e)).

Definition float_of_chars (cs : list ascii) : option float :=
  let '(neg, body) := scan_sign (strip_chars cs) in
  let sgn (x : float) := if neg then PrimFloat.opp x else x in
  let low := string_of_list_ascii (map lower_ascii body) in
  if String.eqb low "inf" || String.eqb low "infinity" then Some (sgn infinity)
  else if String.eqb low "nan" then Some nan
  else match scan_number body with
       | Some (m, e) => Some (sgn (decimal_value m e))
       | None => None
       end.

(** [float(s)] for a [str]; [None] stands for [ValueError]. *)
Definition float_of_string (s : string) : option float :=
  float_of_chars (list_ascii_of_string s).

Definition digit_char (n : Z) : ascii :=
  ascii_of_nat (48 + Z.to_nat (n mod 10)).

(** [10^d <= p / q] *)
Definition le_pow10 (d p q : Z) : bool :=
  if 0 <=? d then 10 ^ d * q <=? p else q <=? p * 10 ^ (- d).

(** The largest [d' >= d] within [fuel] steps with [10^d' <= p / q]. *)
Fixpoint decimal_exponent (fuel : nat) (d p q : Z) : Z :=
  match fuel with
  | O => d
  | S f => if le_pow10 (d + 1) p q then decimal_exponent f (d + 1) p q else d
  end.

(** Sign and at least two digits of a decimal exponent. *)
Definition exponent_chars (d : Z) : list ascii :=
  let a := Z.abs d in
  (if d <? 0 then "-"%char else "+"%char) ::
  (if a <? 100 then [digit_char (a / 10); digit_char a]
   else [digit_char (a / 100); digit_char (a / 10); digit_char a]).

(** [p / q > 0] in scientific notation with three significant digits,
    rounded to nearest, ties to even. Every positive binary64 number lies
    between [10^-400] and [10^400], which bounds the search. *)
Definition sci2 (p q : Z) : list ascii :=
  let d0 := decimal_exponent 800 (-400) p q in
  let '(ps, qs) := scale10 p q (d0 - 2) in
  let n0 := rne ps qs in
  let '(n, d) := if n0 =? 1000 then (100, d0 + 1) else (n0, d0) in
  digit_char (n / 100) :: "."%char :: digit_char (n / 10) :: digit_char n ::
  "E"%char :: exponent_chars d.

(** [format(x, ".2E")] *)
Definition format_2E (x : float) : string :=
  match Prim2SF x with
  | S754_zero s => if s then "-0.00E+00" else "0.00E+00"
  | S754_infinity s => if s then "-INF" else "INF"
  | S754_nan => "NAN"
  | S754_finite s m e =>
      let '(p, q) := scale2 (Zpos m) 1 (- e) in
      string_of_list_ascii ((if s then ["-"%char] else []) ++ sci2 p q)
  end%string.

(** [sum(xs)] for floats: the built-in starts from [0] and adds from left
    to right. (CPython 3.12 and later add a compensation term; the two
    agree whenever every partial sum is exact.) *)
Definition py_sum (xs : list float) : float :=
  fold_left PrimFloat.add xs 0%float.

(** The literal [1e-9], i.e. the binary64 number nearest to it. *)
Definition tiny : float := 0x1.12e0be826d695p-30%float.

End PyFloat.

(** ** Python dictionaries in insertion order *)

Abbreviation pydict V := (list (string * V)).

(** [d.get(k)]: the value stored under [k], if any. *)
Fixpoint dget {V : Type} (k : string) (d : pydict V) : option V :=
  match d with
  | [] => None
  | (k', v) :: r => if String.eqb k k' then Some v else dget k r
  end.

(** [d[k] = v]: an existing key keeps its position, a new key goes last. *)
Fixpoint dset {V : Type} (k : string) (v : V) (d : pydict V) : pydict V :=
  match d with
  | [] => [(k, v)]
  | (k', v') :: r =>
      if String.eqb k k' then (k', v) :: r else (k', v') :: dset k v r
  end.

Definition dkeys {V : Type} (d : pydict V) : list string := map fst d.
Definition dvalues {V : Type} (d : pydict V) : list V := map snd d.

(** [k in d] *)
Definition contains {V : Type} (k : string) (d : pydict V) : bool :=
  match dget k d with Some _ => true | None => false end.

(** [d[k]], raising [KeyError] for a missing key. *)
Definition getitem {V : Type} (k : string) (d : pydict V) : result V :=
  match dget k d with
  | Some v => Ok v
  | None => Raise (KeyError k)
  end.

(** [{key(x): val(x) for x in xs}]: later items overwrite earlier ones
    with the same key. *)
Definition dict_of {A V : Type} (key : A → string) (val : A → V) (xs : list A)
  : pydict V :=
  fold_left (λ d x, dset (key x) (val x) d) xs [].

(** ** ElementTree *)

Module ET.

(** An element with its tag, its text (absent for an empty element) and
    its children in document order. Attributes and tails are not read by
    the script and are left out. *)
#[warnings="-register-all"]
Inductive element :=
| Element (tag : string) (text : option string) (children : list element).

Definition tag (e : element) : string := let 'Element t _ _ := e in t.
Definition text (e : element) : option string := let 'Element _ x _ := e in x.
Definition children (e : element) : list element :=
  let 'Element _ _ c := e in c.

(** [e.find(name)] for a plain tag name: the first child with that tag. *)
Definition find (name : string) (e : element) : option element :=
  List.find (λ c, String.eqb (tag c) name) (children e).

(** [e.iter(name)]: [e] and all its descendants with that tag, in
    document order. *)
Fixpoint iter (name : string) (e : element) : list element :=
  let 'Element t _ cs := e in
  (if String.eqb t name then [e] else []) ++ flat_map (iter name) cs.

End ET.
Export ET(element, Element).

(** ** os.path *)

Module OsPath.

(** Splits at the last occurrence of [c]. *)
Fixpoint rsplit (c : ascii) (cs : list ascii)
  : option (list ascii * list ascii) :=
  match cs with
  | [] => None
  | x :: r =>
      match rsplit c r with
      | Some (a, b) => Some (x :: a, b)
      | None => if Ascii.eqb x c then Some ([], r) else None
      end
  end.

Definition basename (p : string) : string :=
  match rsplit "/" (list_ascii_of_string p) with
  | Some (_, b) => string_of_list_ascii b
  | None => p
  end.

(** [os.path.splitext(p)[0]]: the extension starts at the last dot of the
    last component, unless only dots precede it there. *)
Definition splitext_root (p : string) : string :=
  let cs := list_ascii_of_string p in
  let '(dir, base) :=
    match rsplit "/" cs with
    | Some (a, b) => ((a ++ ["/"%char])%list, b)
    | None => ([], cs)
    end in
  match rsplit "." base with
  | Some (root, _) =>
      if forallb (Ascii.eqb ".") root then p
      else string_of_list_ascii (dir ++ root)%list
  | None => p
  end.

Definition join (a b : string) : string :=
  match b with
  | String "/" _ => b
  | _ => if String.eqb a EmptyString || PyStr.endswith a "/" then a ++ b
         else a ++ "/" ++ b
  end.

End OsPath.

(** ** The world: files and standard output *)

(** What the script prints, one constructor per [print] statement. *)
Inductive out_line :=
| MsgInferError (e : exn)
    (* "Error inferring hemisphere: {e}" *)
| MsgInjectionFound (filename hemisphere_id structure_id : string)
    (* "Injection site found: File=..., Hemisphere=..., Structure ID=..." *)
| MsgInferred (filename inferred_hemisphere : string)
    (* "Inferred injection hemisphere for {filename}: {inferred_hemisphere}" *)
| MsgNoDirectory (directory : string)
    (* "Error: Directory does not exist: {directory}" *)
| MsgCreated
    (* "CSV files created:" *)
| MsgPath (path : string).

(** A path names a directory with its listing, an XML file given by its
    parsed root, a file of CSV rows, or some other regular file. *)
Inductive node :=
| Directory (entries : list string)
| XmlFile (root : element)
| CsvFile (rows : list (list string))
| OtherFile.

Record world := World {
  files : gmap string node;
  stdout : list out_line
}.

Definition M (A : Type) : Type := world → world * result A.

Global Instance M_ret : MRet M := λ A a w, (w, Ok a).
Global Instance M_bind : MBind M := λ A B f m w,
  match m w with
  | (w', Ok a) => f a w'
  | (w', Raise e) => (w', Raise e)
  end.

Definition lift {A : Type} (r : result A) : M A := λ w, (w, r).

Definition print (l : out_line) : M unit :=
  λ w, (World (files w) (stdout w ++ [l]), Ok tt).

Fixpoint for_each_M {A S : Type} (body : S → A → M S) (s : S) (l : list A)
  : M S :=
  match l with
  | [] => mret s
  | x :: r => s' ← body s x; for_each_M body s' r
  end.

(** [os.path.exists(path)] *)
Definition path_exists (path : string) : M bool :=
  λ w, (w, Ok (bool_decide (is_Some (files w !! path)))).

(** [os.listdir(path)] *)
Definition listdir (path : string) : M (list string) :=
  λ w, (w, match files w !! path with
           | Some (Directory entries) => Ok entries
           | Some _ => Raise (NotADirectoryError path)
           | None => Raise (FileNotFoundError path)
           end).

(** [ET.parse(path).getroot()] *)
Definition ET_parse (path : string) : M element :=
  λ w, (w, match files w !! path with
           | Some (XmlFile root) => Ok root
           | Some (Directory _) => Raise (IsADirectoryError path)
           | Some _ => Raise (ParseError path)
           | None => Raise (FileNotFoundError path)
           end).

(** [with open(path, "w") as f: csv.writer(f).writerow(row)]: the file is
    created or truncated, then holds the one row.  The directory part of
    [path] is taken to exist and to be writable. *)
Definition write_row (path : string) (row : list string) : M unit :=
  λ w, match files w !! path with
       | Some (Directory _) => (w, Raise (IsADirectoryError path))
       | _ => (World (<[path := CsvFile [row]]> (files w)) (stdout w), Ok tt)
       end.

(** [with open(path, "a") as f: csv.writer(f).writerows(rows)] *)
Definition append_rows (path : string) (rows : list (list string)) : M unit :=
  λ w, match files w !! path with
       | Some (Directory _) => (w, Raise (IsADirectoryError path))
       | Some (CsvFile old) =>
           (World (<[path := CsvFile (old ++ rows)]> (files w)) (stdout w), Ok tt)
       | Some _ => (World (<[path := OtherFile]> (files w)) (stdout w), Ok tt)
       | None => (World (<[path := CsvFile rows]> (files w)) (stdout w), Ok tt)
       end.

(** ** The hemisphere data table *)

(** hemisphere id → field name → area name → formatted value *)
Abbreviation table := (pydict (pydict (pydict string))).

(** [hemisphere_data[h][f][a]], if all three keys are there. *)
Definition cell (t : table) (h f a : string) : option string :=
  by_h ← dget h t; by_f ← dget f by_h; dget a by_f.

(** [float(v)] for a table cell. *)
Definition float_of_cell (v : string) : result float :=
  match PyFloat.float_of_string v with
  | Some x => Ok x
  | None => Raise (ValueError v)
  end.

(** [float(e.text)] for the text of an element, which may be [None]. *)
Definition float_of_text (text : option string) : result float :=
  match text with
  | Some s => float_of_cell s
  | None => Raise TypeError
  end.

(** ** [infer_injection_hemisphere] *)

(** [sum(float(v) for v in hemisphere_data[h_id][field].values())] *)
Definition total (hemisphere_data : table) (h_id field : string) : result float :=
  by_h ← getitem h_id hemisphere_data;
  by_f ← getitem field by_h;
  xs ← map_result float_of_cell (dvalues by_f);
  Ok (PyFloat.py_sum xs).

(** The body of the [try]: the two sums and the score. *)
Definition score_body (hemisphere_data : table) (h_id : string) : result float :=
  total_volume ← total hemisphere_data h_id "projection-volume";
  total_intensity ← total hemisphere_data h_id "projection-intensity";
  Ok (PrimFloat.add total_volume (PrimFloat.mul PyFloat.tiny total_intensity)).

(** One turn of the loop over ["1"; "2"]: [try] the score, and on any
    exception print it and score [0] (the [int] zero, which compares with
    a float as [0.0] does). *)
Definition score_step (hemisphere_data : table) (scores : pydict float)
    (h_id : string) : M (pydict float) :=
  match score_body hemisphere_data h_id with
  | Ok s => mret (dset h_id s scores)
  | Raise e => _ ← print (MsgInferError e); mret (dset h_id 0%float scores)
  end.

Definition infer_injection_hemisphere (hemisphere_data : table) : M string :=
  scores ← for_each_M (score_step hemisphere_data) [] ["1"; "2"];
  s1 ← lift (getitem "1" scores);
  s2 ← lift (getitem "2" scores);
  if PrimFloat.ltb s2 s1 then mret "1"
  else if PrimFloat.ltb s1 s2 then mret "2"
  else mret "unknown".

(** ** [extract_projection_data] *)

Definition record_tag : string := "projection-structure-unionize".

Definition hemisphere_ids : list string := ["1"; "2"; "3"].

(** The fresh table: every cell is ["0"]. *)
Definition empty_table (areas_of_interest : pydict pyval)
    (additional_fields : list string) : table :=
  dict_of id
    (λ _, dict_of id
       (λ _, dict_of id (λ _, "0") (dkeys areas_of_interest))
       ("projection-density" :: additional_fields))
    hemisphere_ids.

(** The value written for one field of one record:
    [format(float(field_value.text), ".2E") if field_value is not None
    else "0"]. *)
Definition field_cell (projection : element) (field : string) : result string :=
  match ET.find field projection with
  | Some field_value =>
      x ← float_of_text (ET.text field_value); Ok (PyFloat.format_2E x)
  | None => Ok "0"
  end.

(** [hemisphere_data[h][field][area] = v] *)
Definition set_cell (h field area v : string) (hemisphere_data : table)
  : result table :=
  by_h ← getitem h hemisphere_data;
  by_f ← getitem field by_h;
  Ok (dset h (dset field (dset area v by_f) by_h) hemisphere_data).

(** The innermost loop, over the fields of the record's hemisphere. *)
Definition store_fields (projection : element) (h area : string)
    (hemisphere_data : table) : result table :=
  by_h ← getitem h hemisphere_data;
  for_each
    (λ t field, v ← field_cell projection field; set_cell h field area v t)
    hemisphere_data (dkeys by_h).

(** [str(s_id) == structure_id], where the text may be [None]. *)
Definition id_matches (s_id : pyval) (structure_id : option string) : bool :=
  match structure_id with
  | Some s => String.eqb (py_str s_id) s
  | None => false
  end.

(** The body of the first loop, for one record. *)
Definition store_projection (areas_of_interest : pydict pyval)
    (hemisphere_data : table) (projection : element) : result table :=
  match ET.find "hemisphere-id" projection, ET.find "structure-id" projection with
  | Some hemisphere_id, Some structure_id =>
      match ET.text hemisphere_id with
      | Some h =>
          if contains h hemisphere_data then
            for_each
              (λ t '(area, s_id),
                 if id_matches s_id (ET.text structure_id)
                 then store_fields projection h area t
                 else Ok t)
              hemisphere_data areas_of_interest
          else Ok hemisphere_data
      | None => Ok hemisphere_data
      end
  | _, _ => Ok hemisphere_data
  end.

(** An injection site record: (file name, hemisphere id, structure id). *)
Abbreviation site := (string * string * string)%type.

(** [e.text.strip()], raising when the text is [None]. *)
Definition stripped_text (e : element) : result string :=
  match ET.text e with
  | Some s => Ok (PyStr.strip s)
  | None => Raise AttributeError
  end.

(** The test of line 73, for the three stripped texts. *)
Definition is_explicit_injection (visp_values : list pyval)
    (is_injection structure_id hemisphere_id : string) : bool :=
  bool_decide (is_injection ∈ ["true"; "1"; "yes"])
  && py_in (PyStr structure_id) visp_values
  && bool_decide (hemisphere_id ∈ ["1"; "2"]).

(** The body of the second loop; the state is [injection_sites] and
    [found_injection]. *)
Definition scan_injection (filename : string) (visp_values : list pyval)
    (st : list site * bool) (injection : element) : M (list site * bool) :=
  match ET.find "is-injection" injection,
        ET.find "structure-id" injection,
        ET.find "hemisphere-id" injection with
  | Some is_injection_elem, Some structure_id_elem, Some hemisphere_id_elem =>
      is_injection_text ← lift (stripped_text is_injection_elem);
      let is_injection := PyStr.lower is_injection_text in
      structure_id ← lift (stripped_text structure_id_elem);
      hemisphere_id ← lift (stripped_text hemisphere_id_elem);
      if is_explicit_injection visp_values is_injection structure_id hemisphere_id
      then
        _ ← print (MsgInjectionFound filename hemisphere_id structure_id);
        mret ((st.1 ++ [(filename, hemisphere_id, structure_id)])%list, true)
      else mret st
  | _, _, _ => mret st
  end.

Definition extract_projection_data (xml_file : string)
    (areas_of_interest : pydict pyval) (additional_fields : list string)
  : M (string * table * list site) :=
  root ← ET_parse xml_file;
  let filename := OsPath.splitext_root (OsPath.basename xml_file) in
  hemisphere_data ←
    lift (for_each (store_projection areas_of_interest)
            (empty_table areas_of_interest additional_fields)
            (ET.iter record_tag root));
  visp ← lift (getitem "VISp" areas_of_interest);
  '(injection_sites, found_injection) ←
    for_each_M (scan_injection filename [visp]) ([], false)
      (ET.iter record_tag root);
  if found_injection : bool then
    mret (filename, hemisphere_data, injection_sites)
  else
    inferred_hemisphere ← infer_injection_hemisphere hemisphere_data;
    _ ← print (MsgInferred filename inferred_hemisphere);
    mret (filename, hemisphere_data,
          (injection_sites ++ [(filename, inferred_hemisphere, "inferred")])%list).

(** ** [process_xml_files] *)

Definition output_name (h_id field : string) : string :=
  "output_hemisphere_" ++ h_id ++ "_" ++ field ++ ".csv".

(** [hemisphere_output_paths] *)
Definition output_paths (output_directory : string)
    (additional_fields : list string) : pydict (pydict string) :=
  dict_of id
    (λ h_id, dict_of id
       (λ field, OsPath.join output_directory (output_name h_id field))
       ("projection-density" :: additional_fields))
    hemisphere_ids.

Definition injection_path (output_directory : string) : string :=
  OsPath.join output_directory "output_injection_sites.csv".

Definition header_row (areas_of_interest : pydict pyval) : list string :=
  "filename" :: dkeys areas_of_interest.

Definition injection_header : list string :=
  ["filename"; "hemisphere_id"; "structure_id"].

(** The two header loops: every output file is opened in mode ["w"] and
    receives its header row. *)
Definition write_headers (paths : pydict (pydict string))
    (injection_output_path : string) (areas_of_interest : pydict pyval)
  : M unit :=
  _ ← for_each_M
        (λ _ h_id,
           by_h ← lift (getitem h_id paths);
           for_each_M
             (λ _ '(field, path), write_row path (header_row areas_of_interest))
             tt by_h)
        tt (dkeys paths);
  write_row injection_output_path injection_header.

(** The row of one file in the table of hemisphere [h_id] and [field]. *)
Definition data_row (filename : string) (hemisphere_data : table)
    (h_id field : string) (areas_of_interest : pydict pyval)
  : result (list string) :=
  cells ← map_result
            (λ area,
               by_h ← getitem h_id hemisphere_data;
               by_f ← getitem field by_h;
               getitem area by_f)
            (dkeys areas_of_interest);
  Ok (filename :: cells).

Definition site_row (s : site) : list string :=
  let '(filename, hemisphere_id, structure_id) := s in
  [filename; hemisphere_id; structure_id].

(** The body of the loop over the XML files. *)
Definition process_file (paths : pydict (pydict string))
    (injection_output_path : string) (areas_of_interest : pydict pyval)
    (additional_fields : list string) (xml_file : string) : M unit :=
  '(filename, hemisphere_data, injection_sites) ←
    extract_projection_data xml_file areas_of_interest additional_fields;
  _ ← for_each_M
        (λ _ h_id,
           by_h ← lift (getitem h_id paths);
           for_each_M
             (λ _ '(field, path),
                row ← lift (data_row filename hemisphere_data h_id field
                              areas_of_interest);
                append_rows path [row])
             tt by_h)
        tt (dkeys hemisphere_data);
  match injection_sites with
  | [] => mret tt
  | _ => append_rows injection_output_path (map site_row injection_sites)
  end.

(** The closing manifest. *)
Definition print_manifest (paths : pydict (pydict string))
    (injection_output_path : string) : M unit :=
  _ ← print MsgCreated;
  _ ← for_each_M
        (λ _ h_id,
           by_h ← lift (getitem h_id paths);
           for_each_M (λ _ path, print (MsgPath path)) tt (dvalues by_h))
        tt (dkeys paths);
  print (MsgPath injection_output_path).

Definition process_xml_files (directory output_directory : string)
    (areas_of_interest : pydict pyval) (additional_fields : list string)
  : M unit :=
  present ← path_exists directory;
  if negb present then print (MsgNoDirectory directory)
  else
    entries ← listdir directory;
    let xml_files :=
      map (OsPath.join directory)
        (List.filter (λ f, PyStr.endswith f ".xml") entries) in
    let paths := output_paths output_directory additional_fields in
    let injection_output_path := injection_path output_directory in
    _ ← write_headers paths injection_output_path areas_of_interest;
    _ ← for_each_M
          (λ _ xml_file,
             process_file paths injection_output_path areas_of_interest
               additional_fields xml_file)
          tt xml_files;
    print_manifest paths injection_output_path.

(** ** The script's constants *)

Definition areas_of_interest : pydict pyval :=
  [("VISal", PyInt 402); ("VISam", PyInt 394); ("VISl", PyInt 409);
   ("VISp", PyInt 385); ("VISpl", PyInt 425); ("VISpm", PyInt 533);
   ("VISli", PyInt 312782574); ("VISpor", PyInt 312782628);
   ("RSPagl", PyInt 894); ("RSPd", PyInt 879); ("RSPv", PyInt 886);
   ("VISa", PyInt 312782546); ("VISrl", PyInt 417)].

Definition additional_fields : list string :=
  ["normalized-projection-volume"; "projection-intensity"; "projection-volume";
   "sum-pixel-intensity"; "sum-pixels"; "sum-projection-pixel-intensity";
   "sum-projection-pixels"; "volume"].

(** The nine measured fields. *)
Definition measured_fields : list string :=
  "projection-density" :: additional_fields.

(** ** Notions used in the statements *)

(** What a computation returns or raises when run in world [w]. *)
Definition outcome {A : Type} (m : M A) (w : world) : result A := (m w).2.

(** What a computation adds to standard output, given that it only adds. *)
Definition printed {A : Type} (m : M A) (w : world) : list out_line :=
  drop (length (stdout w)) (stdout (m w).1).

(** [hemisphere_data[h][f]], if both keys are there. *)
Definition submap (t : table) (h f : string) : option (pydict string) :=
  by_h ← dget h t; dget f by_h.

(** The score the loop stores for [h_id]: the one computed, or [0] when
    the [try] body raised. *)
Definition stored_score (t : table) (h_id : string) : float :=
  match score_body t h_id with
  | Ok s => s
  | Raise _ => 0%float
  end.

(** [Score = total_volume + 1e-9 * total_intensity], for the parsed cells of
    the two sub-maps. *)
Definition score_of (volumes intensities : list float) : float :=
  PrimFloat.add (PyFloat.py_sum volumes)
    (PrimFloat.mul PyFloat.tiny (PyFloat.py_sum intensities)).

(** The final comparison of the two scores. *)
Definition verdict (s1 s2 : float) : string :=
  if PrimFloat.ltb s2 s1 then "1"
  else if PrimFloat.ltb s1 s2 then "2"
  else "unknown".

(** What the [except] branch prints for [h_id], if it runs. *)
Definition score_messages (t : table) (h_id : string) : list out_line :=
  match score_body t h_id with
  | Ok _ => []
  | Raise e => [MsgInferError e]
  end.

(** Exchanging the labels ["1"] and ["2"]. *)
Definition swap_label (r : string) : string :=
  if String.eqb r "1" then "2" else if String.eqb r "2" then "1" else r.

(** [t'] holds under ["1"] what [t] holds under ["2"], and conversely. *)
Definition swapped (t t' : table) : Prop :=
  dget "1" t' = dget "2" t ∧ dget "2" t' = dget "1" t.

(** The table with the keys ["1"] and ["2"] exchanged. *)
Definition swap_hemispheres (t : table) : table :=
  map (λ '(k, v), (swap_label k, v)) t.

(** The records of a document, in document order. *)
Definition records (root : element) : list element := ET.iter record_tag root.

(** The first loop stores record [r] under hemisphere [h] and area [a]:
    it has both identifiers, its hemisphere text is [h], and its structure
    text is the rendered identifier of [a] in the catalog. *)
Definition maps_to (areas : pydict pyval) (h a : string) (r : element) : bool :=
  match ET.find "hemisphere-id" r, ET.find "structure-id" r with
  | Some hemisphere_id, Some structure_id =>
      bool_decide (ET.text hemisphere_id = Some h)
      && existsb (λ '(a', s_id),
                    String.eqb a' a && id_matches s_id (ET.text structure_id))
           areas
  | _, _ => false
  end.

(** The last record of [rs] stored under [h] and [a]. *)
Definition last_match (areas : pydict pyval) (h a : string)
    (rs : list element) : option element :=
  last (List.filter (maps_to areas h a) rs).

(** The record the second loop appends for [r], if [r] passes its test:
    the three children are there with their texts, and the stripped texts
    satisfy [is_explicit_injection]. *)
Definition explicit_site (filename : string) (visp_values : list pyval)
    (r : element) : option site :=
  match ET.find "is-injection" r, ET.find "structure-id" r,
        ET.find "hemisphere-id" r with
  | Some i, Some s, Some h =>
      match ET.text i, ET.text s, ET.text h with
      | Some ti, Some ts, Some th =>
          if is_explicit_injection visp_values
               (PyStr.lower (PyStr.strip ti)) (PyStr.strip ts) (PyStr.strip th)
          then Some (filename, PyStr.strip th, PyStr.strip ts)
          else None
      | _, _, _ => None
      end
  | _, _, _ => None
  end.

(** The name under which a file is reported. *)
Definition filename_of (xml_file : string) : string :=
  OsPath.splitext_root (OsPath.basename xml_file).

(** Every measured field of [r] that is present holds a number. *)
Definition numeric_fields (fields : list string) (r : element) : Prop :=
  ∀ f, In f fields → ∃ v, field_cell r f = Ok v.

(** The children of [r] that the second loop strips have a text. *)
Definition has_texts (r : element) : Prop :=
  ∀ name child,
    In name ["is-injection"; "structure-id"; "hemisphere-id"] →
    ET.find name r = Some child → is_Some (ET.text child).

(** All the cells of a table. *)
Definition all_cells (t : table) : list string :=
  flat_map (λ by_h, flat_map dvalues (dvalues by_h)) (dvalues t).

(** A cell as the extractor writes it: the default or a formatted float. *)
Definition written_cell (v : string) : Prop :=
  v = "0" ∨ ∃ x : float, v = PyFloat.format_2E x.

(** The 27 hemisphere and field CSV files of an output directory (for
    the script's eight additional fields). *)
Definition hemisphere_files (output_directory : string)
    (additional_fields : list string) : list string :=
  flat_map
    (λ h_id,
       map (λ field, OsPath.join output_directory (output_name h_id field))
         ("projection-density" :: additional_fields))
    hemisphere_ids.

(** All the output files. *)
Definition output_files (output_directory : string)
    (additional_fields : list string) : list string :=
  hemisphere_files output_directory additional_fields
  ++ [injection_path output_directory].

(** [path] does not name a directory. *)
Definition not_directory (w : world) (path : string) : Prop :=
  ∀ entries, files w !! path ≠ Some (Directory entries).

(** What [process_xml_files] does after the headers are written: the
    loop over the XML files of the listing, then the manifest. *)
Definition process_listing (directory output_directory : string)
    (areas_of_interest : pydict pyval) (additional_fields : list string)
    (entries : list string) : M unit :=
  let xml_files :=
    map (OsPath.join directory)
      (List.filter (λ f, PyStr.endswith f ".xml") entries) in
  let paths := output_paths output_directory additional_fields in
  let injection_output_path := injection_path output_directory in
  _ ← for_each_M
        (λ _ xml_file,
           process_file paths injection_output_path areas_of_interest
             additional_fields xml_file)
        tt xml_files;
  print_manifest paths injection_output_path.

(** A table that agrees with [intensity_outweighs] on the four sub-maps
    read by the inference and differs everywhere else. *)
Definition intensity_outweighs_padded : table :=
  [("3", [("projection-volume", [("VISp", "abc")])]);
   ("1", [("volume", [("VISp", "9.99E+99")]);
          ("projection-volume", [("VISp", "1.00E+00")]);
          ("projection-intensity", [("VISp", "0")])]);
   ("2", [("projection-volume", [("VISp", "0")]);
          ("sum-pixels", [("VISal", "1.00E+00")]);
          ("projection-intensity", [("VISp", "1.00E+10")])])].

(** A world with a data directory holding one XML file. *)
Definition data_world : world :=
  World {[ "data" := Directory ["scan.xml"; "notes.txt"];
           "data/scan.xml" := XmlFile
             (Element "projection-structure-unionizes" None []) ]} [].

(** ** Sample documents *)

Definition leaf (tag text : string) : element := Element tag (Some text) [].

(** A document is a root element around its records. *)
Definition document (rs : list element) : element :=
  Element "projection-structure-unionizes" None rs.

(** The world holding one XML file and nothing else. *)
Definition one_file (path : string) (root : element) : world :=
  World {[ path := XmlFile root ]} [].

(** A VISp injection record at hemisphere "1", and nothing else. *)
Definition visp_injection : element :=
  document
    [Element record_tag None
       [leaf "hemisphere-id" "1"; leaf "structure-id" "385";
        leaf "is-injection" "true"]].

(** A VISp record whose volume is not a number. *)
Definition malformed_volume : element :=
  document
    [Element record_tag None
       [leaf "hemisphere-id" "1"; leaf "structure-id" "385";
        leaf "volume" "abc"]].

(** Two records for VISp at hemisphere "2"; the second has no
    "sum-pixels". *)
Definition duplicate_records : element :=
  document
    [Element record_tag None
       [leaf "hemisphere-id" "2"; leaf "structure-id" "385";
        leaf "volume" "1.5"; leaf "sum-pixels" "7"];
     Element record_tag None
       [leaf "hemisphere-id" "2"; leaf "structure-id" "385";
        leaf "volume" "2.5"]].


(** The world with no file and nothing printed. *)
Definition empty_world : world := World ∅ [].

(** A table with one area, in which hemisphere "1" has the larger volume
    and hemisphere "2" the larger intensity. *)
Definition intensity_outweighs : table :=
  [("1", [("projection-volume", [("VISp", "1.00E+00")]);
          ("projection-intensity", [("VISp", "0")])]);
   ("2", [("projection-volume", [("VISp", "0")]);
          ("projection-intensity", [("VISp", "1.00E+10")])])].

(** * Properties *)

Local Open Scope list_scope.

(** ** Dictionaries *)

Section dict_facts.
Context {V : Type}.
Implicit Types (d : pydict V) (k : string) (v : V).

Lemma dget_dset k k' v d :
  dget k' (dset k v d) = if String.eqb k' k then Some v else dget k' d.
Proof.
  induction d as [|[k0 v0] d IH]; simpl.
  - destruct (String.eqb k' k); reflexivity.
  - destruct (String.eqb_spec k k0) as [->|Hne]; simpl.
    + destruct (String.eqb_spec k' k0); reflexivity.
    + rewrite IH. destruct (String.eqb_spec k' k0) as [->|Hne'].
      * destruct (String.eqb_spec k0 k); congruence.
      * reflexivity.
Qed.

Lemma dget_dset_eq k v d : dget k (dset k v d) = Some v.
Proof. rewrite dget_dset, String.eqb_refl. reflexivity. Qed.

Lemma dget_dset_ne k k' v d : k' ≠ k → dget k' (dset k v d) = dget k' d.
Proof.
  intros Hne. rewrite dget_dset.
  destruct (String.eqb_spec k' k); congruence.
Qed.

Lemma dkeys_dset_present k v d :
  is_Some (dget k d) → dkeys (dset k v d) = dkeys d.
Proof.
  induction d as [|[k0 v0] d IH]; simpl; intros [x Hx]; [discriminate|].
  destruct (String.eqb_spec k k0) as [->|Hne]; simpl; [reflexivity|].
  f_equal. apply IH. eauto.
Qed.

Lemma dvalues_dset_Forall (P : V → Prop) k v d :
  Forall P (dvalues d) → P v → Forall P (dvalues (dset k v d)).
Proof.
  induction d as [|[k0 v0] d IH]; simpl; intros Hd Hv.
  - repeat constructor. exact Hv.
  - inversion Hd as [|? ? Hv0 Hd']; subst.
    destruct (String.eqb k k0); simpl; constructor; auto.
Qed.

Lemma dget_Some_values k v d : dget k d = Some v → In v (dvalues d).
Proof.
  induction d as [|[k0 v0] d IH]; simpl; [discriminate|].
  destruct (String.eqb k k0); intros H.
  - left. congruence.
  - right. auto.
Qed.

Lemma dget_is_Some_keys k d : is_Some (dget k d) ↔ In k (dkeys d).
Proof.
  induction d as [|[k0 v0] d IH]; simpl.
  - split; [intros [? ?]; discriminate | tauto].
  - destruct (String.eqb_spec k k0) as [->|Hne].
    + split; eauto.
    + rewrite IH. split; [tauto | intros [?|?]; congruence].
Qed.

Lemma contains_keys k d : contains k d = true ↔ In k (dkeys d).
Proof.
  rewrite <- dget_is_Some_keys. unfold contains.
  destruct (dget k d); split; try discriminate; eauto.
  intros [? ?]; discriminate.
Qed.
End dict_facts.

(** ** Float comparison *)

Lemma SFcompare_antisym (a b : spec_float) (c : comparison) :
  SFcompare a b = Some c → SFcompare b a = Some (CompOpp c).
Proof.
  destruct a as [sa|sa| |sa ma ea], b as [sb|sb| |sb mb eb]; simpl;
    try discriminate;
    try (intros [= <-]; try destruct sa; try destruct sb; reflexivity).
  intros [= <-]. f_equal.
  destruct sa, sb; simpl; try reflexivity;
    rewrite (Z.compare_antisym ea eb);
    destruct (ea ?= eb)%Z; simpl; try reflexivity;
    rewrite ?(Pos.compare_cont_antisym ma mb Eq); reflexivity.
Qed.


Lemma float_ltb_asym (a b : float) :
  PrimFloat.ltb a b = true → PrimFloat.ltb b a = false.
Proof.
  rewrite !FloatAxioms.ltb_spec. unfold SFltb.
  destruct (SFcompare (Prim2SF a) (Prim2SF b)) as [[| |]|] eqn:E;
    try discriminate.
  rewrite (SFcompare_antisym _ _ _ E). reflexivity.
Qed.

(** ** Running computations *)

Section run_facts.
Context {A B : Type}.

Lemma run_bind (m : M A) (f : A → M B) (w : world) :
  (m ≫= f) w =
  match m w with
  | (w', Ok a) => f a w'
  | (w', Raise e) => (w', Raise e)
  end.
Proof. reflexivity. Qed.

Lemma run_ret (a : A) (w : world) : mret (M := M) a w = (w, Ok a).
Proof. reflexivity. Qed.

Lemma run_lift (r : result A) (w : world) : lift r w = (w, r).
Proof. reflexivity. Qed.
End run_facts.

Lemma run_print (l : out_line) (w : world) :
  print l w = (World (files w) (stdout w ++ [l]), Ok tt).
Proof. reflexivity. Qed.

Lemma world_eta (w : world) : World (files w) (stdout w) = w.
Proof. destruct w; reflexivity. Qed.

Create Rewrite HintDb run.
Hint Rewrite @run_bind @run_ret @run_lift run_print : run.

(** Unfolds the monad along a computation applied to a world. *)
Ltac run := repeat (autorewrite with run; cbn [files stdout]).

(** ** [infer_injection_hemisphere] *)

(** The function in closed form: it prints what the two [except] branches
    print and returns the verdict on the two stored scores. *)
Lemma infer_run (t : table) (w : world) :
  infer_injection_hemisphere t w =
  (World (files w) (stdout w ++ score_messages t "1" ++ score_messages t "2"),
   Ok (verdict (stored_score t "1") (stored_score t "2"))).
Proof.
  unfold infer_injection_hemisphere, stored_score, score_messages, verdict.
  cbn [for_each_M]. unfold score_step.
  destruct (score_body t "1") as [s1|e1], (score_body t "2") as [s2|e2];
    run; cbn -[PrimFloat.ltb]; run;
    rewrite <- ?app_assoc; cbn [app]; rewrite ?app_nil_r, ?world_eta;
    repeat match goal with
           | |- context [if ?b then _ else _] => destruct b
           end; reflexivity.
Qed.

Lemma infer_outcome (t : table) (w : world) :
  outcome (infer_injection_hemisphere t) w =
  Ok (verdict (stored_score t "1") (stored_score t "2")).
Proof. unfold outcome. rewrite infer_run. reflexivity. Qed.

Lemma total_submap (t : table) (h f : string) (d : pydict string)
    (xs : list float) :
  submap t h f = Some d →
  map_result float_of_cell (dvalues d) = Ok xs →
  total t h f = Ok (PyFloat.py_sum xs).
Proof.
  unfold submap, total, getitem. intros Hd Hxs.
  destruct (dget h t) as [by_h|]; simpl in *; [|discriminate].
  rewrite Hd. simpl. rewrite Hxs. reflexivity.
Qed.

Lemma stored_score_parsed (t : table) (h : string) (vol int : pydict string)
    (vs xs : list float) :
  submap t h "projection-volume" = Some vol →
  submap t h "projection-intensity" = Some int →
  map_result float_of_cell (dvalues vol) = Ok vs →
  map_result float_of_cell (dvalues int) = Ok xs →
  score_body t h = Ok (score_of vs xs).
Proof.
  intros Hv Hi Hvs Hxs. unfold score_body.
  rewrite (total_submap _ _ _ _ _ Hv Hvs), (total_submap _ _ _ _ _ Hi Hxs).
  reflexivity.
Qed.



(** The stored score of a hemisphere reads nothing but the entry of that
    hemisphere. *)
Lemma stored_score_entry (t t' : table) (h h' : string) :
  dget h t = dget h' t' → stored_score t h = stored_score t' h'.
Proof.
  intros H. unfold stored_score, score_body, total, getitem.
  rewrite <- H. destruct (dget h t); reflexivity.
Qed.

Lemma verdict_swap (s1 s2 : float) :
  verdict s2 s1 = swap_label (verdict s1 s2).
Proof.
  unfold verdict.
  destruct (PrimFloat.ltb s2 s1) eqn:E21.
  - rewrite (float_ltb_asym _ _ E21). reflexivity.
  - destruct (PrimFloat.ltb s1 s2); reflexivity.
Qed.



(** C4, as stated, fails: here hemisphere "1" has the strictly greater
    summed projection-volume, yet the function returns "2", because the
    intensity term of the score outweighs the volumes. *)
Lemma greater_volume_does_not_decide :
  total intensity_outweighs "1" "projection-volume" = Ok 1%float ∧
  total intensity_outweighs "2" "projection-volume" = Ok 0%float ∧
  PrimFloat.ltb 0 1 = true ∧
  outcome (infer_injection_hemisphere intensity_outweighs) empty_world
  = Ok "2".
Proof. vm_compute. repeat split; reflexivity. Qed.

(** C4, amended. The function compares the stored scores (volume sum plus
    1e-9 times intensity sum, or 0 when the [try] body raised): it
    returns "1" when the score of hemisphere "1" is strictly greater, "2"
    in the reverse case and "unknown" when neither is greater; and on a
    table with the data of the two hemispheres exchanged it returns the
    same answer with "1" and "2" exchanged. *)
Theorem infer_compares_scores_symmetric (t t' : table) (w w' : world) :
  (PrimFloat.ltb (stored_score t "2") (stored_score t "1") = true →
   outcome (infer_injection_hemisphere t) w = Ok "1") ∧
  (PrimFloat.ltb (stored_score t "1") (stored_score t "2") = true →
   outcome (infer_injection_hemisphere t) w = Ok "2") ∧
  (PrimFloat.ltb (stored_score t "2") (stored_score t "1") = false →
   PrimFloat.ltb (stored_score t "1") (stored_score t "2") = false →
   outcome (infer_injection_hemisphere t) w = Ok "unknown") ∧
  (swapped t t' →
   ∃ r, outcome (infer_injection_hemisphere t) w = Ok r ∧
        outcome (infer_injection_hemisphere t') w' = Ok (swap_label r)).
Proof.
  rewrite !infer_outcome. repeat split.
  - unfold verdict. intros ->. reflexivity.
  - unfold verdict. intros H. rewrite (float_ltb_asym _ _ H), H. reflexivity.
  - unfold verdict. intros -> ->. reflexivity.
  - intros [H1 H2]. eexists. split; [reflexivity|].
    rewrite (stored_score_entry t' t "1" "2" H1),
            (stored_score_entry t' t "2" "1" H2).
    rewrite verdict_swap. reflexivity.
Qed.

Lemma swap_label_eqb (k a b : string) :
  swap_label a = b → swap_label b = a →
  String.eqb a (swap_label k) = String.eqb b k.
Proof.
  intros Hab Hba.
  destruct (String.eqb_spec b k) as [<-|Hne].
  - rewrite Hba. apply String.eqb_refl.
  - apply String.eqb_neq. intros ->. apply Hne. rewrite <- Hab.
    unfold swap_label.
    destruct (String.eqb_spec k "1") as [->|N1]; [reflexivity|].
    destruct (String.eqb_spec k "2") as [->|N2]; [reflexivity|].
    simpl. rewrite (proj2 (String.eqb_neq k "1") N1).
    rewrite (proj2 (String.eqb_neq k "2") N2). reflexivity.
Qed.

Lemma swap_hemispheres_swapped (t : table) : swapped t (swap_hemispheres t).
Proof.
  unfold swapped, swap_hemispheres.
  split; induction t as [|[k v] t IH]; cbn [map dget]; try reflexivity;
    rewrite IH.
  - rewrite (swap_label_eqb k "1" "2"); reflexivity.
  - rewrite (swap_label_eqb k "2" "1"); reflexivity.
Qed.

Lemma infer_compares_scores_symmetric_witness :
  outcome (infer_injection_hemisphere intensity_outweighs) empty_world
  = Ok "2" ∧
  outcome (infer_injection_hemisphere (swap_hemispheres intensity_outweighs))
    empty_world = Ok "1".
Proof.
  destruct (infer_compares_scores_symmetric intensity_outweighs
              (swap_hemispheres intensity_outweighs) empty_world empty_world)
    as (_ & H2 & _ & Hs).
  assert (E : outcome (infer_injection_hemisphere intensity_outweighs)
                empty_world = Ok "2")
    by (apply H2; vm_compute; reflexivity).
  split; [exact E|].
  destruct Hs as (r & Hr & Hr'); [split; vm_compute; reflexivity|].
  rewrite E in Hr. injection Hr as <-. exact Hr'.
Defined.

(** C10. The result depends on nothing but the "projection-volume" and
    "projection-intensity" sub-maps of hemispheres "1" and "2": two
    tables that agree on these four sub-maps get the same answer,
    whatever else they hold and in whatever world they run. *)
Theorem infer_noninterference (t t' : table) (w w' : world) :
  submap t "1" "projection-volume" = submap t' "1" "projection-volume" →
  submap t "1" "projection-intensity" = submap t' "1" "projection-intensity" →
  submap t "2" "projection-volume" = submap t' "2" "projection-volume" →
  submap t "2" "projection-intensity" = submap t' "2" "projection-intensity" →
  outcome (infer_injection_hemisphere t) w
  = outcome (infer_injection_hemisphere t') w'.
Proof.
  intros V1 I1 V2 I2. rewrite !infer_outcome.
  assert (S : ∀ h,
    submap t h "projection-volume" = submap t' h "projection-volume" →
    submap t h "projection-intensity" = submap t' h "projection-intensity" →
    stored_score t h = stored_score t' h).
  { intros h. unfold submap, stored_score, score_body, total, getitem.
    destruct (dget h t) as [b|], (dget h t') as [b'|]; simpl;
      intros Hv Hi; try reflexivity.
    - rewrite Hv, Hi. reflexivity.
    - rewrite Hv. reflexivity.
    - rewrite <- Hv. reflexivity. }
  rewrite (S "1" V1 I1), (S "2" V2 I2). reflexivity.
Qed.

(** ** The first loop of [extract_projection_data] *)

Lemma for_each_app {A S : Type} (body : S → A → result S) (s : S)
    (l1 l2 : list A) :
  for_each body s (l1 ++ l2) = s' ← for_each body s l1; for_each body s' l2.
Proof.
  revert s. induction l1 as [|x l1 IH]; intros s; simpl; [reflexivity|].
  destruct (body s x); simpl; [apply IH | reflexivity].
Qed.

Lemma cell_set_cell (h0 f0 a0 v : string) (t t' : table) :
  set_cell h0 f0 a0 v t = Ok t' →
  ∀ h f a,
    cell t' h f a =
    if String.eqb h h0 && String.eqb f f0 && String.eqb a a0 then Some v
    else cell t h f a.
Proof.
  unfold set_cell, getitem.
  destruct (dget h0 t) as [by_h|] eqn:Eh; simpl; [|discriminate].
  destruct (dget f0 by_h) as [by_f|] eqn:Ef; simpl; [|discriminate].
  intros [= <-] h f a. unfold cell. rewrite dget_dset.
  destruct (String.eqb_spec h h0) as [->|Hh]; simpl; [|reflexivity].
  rewrite Eh. simpl. rewrite dget_dset.
  destruct (String.eqb_spec f f0) as [->|Hf]; simpl; [|reflexivity].
  rewrite Ef. simpl. rewrite dget_dset. reflexivity.
Qed.

(** The keys of a table: the hemispheres with the fields under each. *)
Lemma shape_set_cell (h0 f0 a0 v : string) (t t' : table) :
  set_cell h0 f0 a0 v t = Ok t' →
  ∀ h, dkeys <$> dget h t' = dkeys <$> dget h t.
Proof.
  unfold set_cell, getitem.
  destruct (dget h0 t) as [by_h|] eqn:Eh; simpl; [|discriminate].
  destruct (dget f0 by_h) as [by_f|] eqn:Ef; simpl; [|discriminate].
  intros [= <-] h. rewrite dget_dset.
  destruct (String.eqb_spec h h0) as [->|Hh]; [|reflexivity].
  rewrite Eh. simpl. f_equal. apply dkeys_dset_present. eauto.
Qed.

Lemma all_cells_dset (P : string → Prop) (h : string) (by_h : pydict (pydict string))
    (t : table) :
  Forall P (all_cells t) →
  Forall P (flat_map dvalues (dvalues by_h)) →
  Forall P (all_cells (dset h by_h t)).
Proof.
  unfold all_cells. induction t as [|[k x] t IH]; simpl; intros Ht Hb.
  - rewrite app_nil_r. exact Hb.
  - apply Forall_app in Ht as [Hx Ht].
    destruct (String.eqb h k); simpl; apply Forall_app; auto.
Qed.

Lemma all_cells_entry (P : string → Prop) (h : string)
    (by_h : pydict (pydict string)) (t : table) :
  Forall P (all_cells t) → dget h t = Some by_h →
  Forall P (flat_map dvalues (dvalues by_h)).
Proof.
  unfold all_cells. induction t as [|[k x] t IH]; simpl; [discriminate|].
  intros Ht. apply Forall_app in Ht as [Hx Ht].
  destruct (String.eqb h k); [intros [= <-]; exact Hx | auto].
Qed.

Lemma field_cells_dset (P : string → Prop) (f : string) (by_f : pydict string)
    (by_h : pydict (pydict string)) :
  Forall P (flat_map dvalues (dvalues by_h)) →
  Forall P (dvalues by_f) →
  Forall P (flat_map dvalues (dvalues (dset f by_f by_h))).
Proof.
  induction by_h as [|[k x] by_h IH]; simpl; intros Ht Hb.
  - rewrite app_nil_r. exact Hb.
  - apply Forall_app in Ht as [Hx Ht].
    destruct (String.eqb f k); simpl; apply Forall_app; auto.
Qed.

Lemma field_cells_entry (P : string → Prop) (f : string) (by_f : pydict string)
    (by_h : pydict (pydict string)) :
  Forall P (flat_map dvalues (dvalues by_h)) → dget f by_h = Some by_f →
  Forall P (dvalues by_f).
Proof.
  induction by_h as [|[k x] by_h IH]; simpl; [discriminate|].
  intros Ht. apply Forall_app in Ht as [Hx Ht].
  destruct (String.eqb f k); [intros [= <-]; exact Hx | auto].
Qed.

Lemma all_cells_set_cell (P : string → Prop) (h0 f0 a0 v : string)
    (t t' : table) :
  set_cell h0 f0 a0 v t = Ok t' →
  Forall P (all_cells t) → P v → Forall P (all_cells t').
Proof.
  unfold set_cell, getitem.
  destruct (dget h0 t) as [by_h|] eqn:Eh; simpl; [|discriminate].
  destruct (dget f0 by_h) as [by_f|] eqn:Ef; simpl; [|discriminate].
  intros [= <-] Ht Hv.
  pose proof (all_cells_entry P _ _ _ Ht Eh) as Hb.
  pose proof (field_cells_entry P _ _ _ Hb Ef) as Hf.
  apply all_cells_dset; [exact Ht|].
  apply field_cells_dset; [exact Hb|].
  apply dvalues_dset_Forall; assumption.
Qed.

Lemma existsb_eqb_In (f : string) (fs : list string) :
  existsb (String.eqb f) fs = true ↔ In f fs.
Proof.
  rewrite existsb_exists. split.
  - intros (x & Hx & E). apply String.eqb_eq in E. congruence.
  - intros H. exists f. split; [exact H | apply String.eqb_refl].
Qed.

Lemma cell_is_Some_field (t : table) (h f a : string) :
  is_Some (cell t h f a) →
  ∃ by_h, dget h t = Some by_h ∧ In f (dkeys by_h).
Proof.
  unfold cell. destruct (dget h t) as [by_h|]; simpl;
    [|intros [? ?]; discriminate].
  intros H. exists by_h. split; [reflexivity|].
  apply dget_is_Some_keys. destruct (dget f by_h); [eauto|].
  destruct H; discriminate.
Qed.

Section first_loop.
Variable P : string → Prop.
Variable r : element.
Hypothesis P_field : ∀ f v, field_cell r f = Ok v → P v.

(** The loop over the fields writes, for each field, what [field_cell]
    gives for the record, under hemisphere [h0] and area [a0]. *)
Lemma fields_loop (h0 a0 : string) (fs : list string) (t t' : table) :
  for_each
    (λ t field, v ← field_cell r field; set_cell h0 field a0 v t) t fs
  = Ok t' →
  (∀ h, dkeys <$> dget h t' = dkeys <$> dget h t) ∧
  (Forall P (all_cells t) → Forall P (all_cells t')) ∧
  (∀ h f a,
     if String.eqb h h0 && String.eqb a a0 && existsb (String.eqb f) fs
     then ∃ v, field_cell r f = Ok v ∧ cell t' h f a = Some v
     else cell t' h f a = cell t h f a).
Proof.
  revert t. induction fs as [|f0 fs IH]; intros t; simpl.
  - intros [= <-]. repeat split; auto.
    intros h f a. rewrite andb_false_r. reflexivity.
  - destruct (field_cell r f0) as [v0|] eqn:Ev; simpl; [|discriminate].
    destruct (set_cell h0 f0 a0 v0 t) as [t1|] eqn:Es; simpl; [|discriminate].
    intros Hrest. destruct (IH _ Hrest) as (Sh & HP & Hc).
    repeat split.
    + intros h. rewrite Sh. exact (shape_set_cell _ _ _ _ _ _ Es h).
    + intros Ht. apply HP.
      exact (all_cells_set_cell P _ _ _ _ _ _ Es Ht (P_field _ _ Ev)).
    + intros h f a. specialize (Hc h f a).
      rewrite (cell_set_cell _ _ _ _ _ _ Es) in Hc.
      destruct (String.eqb_spec h h0) as [->|Hh]; simpl in *; [|exact Hc].
      destruct (String.eqb_spec a a0) as [Ea|Ha]; simpl in *;
        [|rewrite andb_false_r in Hc; exact Hc].
      destruct (existsb (String.eqb f) fs); [rewrite orb_true_r; exact Hc|].
      rewrite orb_false_r, andb_true_r in *.
      destruct (String.eqb_spec f f0) as [->|Hf]; [|exact Hc].
      exists v0. split; assumption.
Qed.

Lemma store_fields_spec (h0 a0 : string) (t t' : table) :
  store_fields r h0 a0 t = Ok t' →
  (∀ h, dkeys <$> dget h t' = dkeys <$> dget h t) ∧
  (Forall P (all_cells t) → Forall P (all_cells t')) ∧
  (∀ h f a, is_Some (cell t h f a) →
     if String.eqb h h0 && String.eqb a a0
     then ∃ v, field_cell r f = Ok v ∧ cell t' h f a = Some v
     else cell t' h f a = cell t h f a).
Proof.
  unfold store_fields, getitem.
  destruct (dget h0 t) as [by_h|] eqn:Eh; simpl; [|discriminate].
  intros Hloop. destruct (fields_loop _ _ _ _ _ Hloop) as (Sh & HP & Hc).
  repeat split; [exact Sh | exact HP |].
  intros h f a Hsome. specialize (Hc h f a).
  destruct (String.eqb h h0 && String.eqb a a0) eqn:E; simpl in *;
    [|exact Hc].
  apply andb_prop in E as [E _]. apply String.eqb_eq in E as ->.
  destruct (cell_is_Some_field _ _ _ _ Hsome) as (b & Hb & Hin).
  rewrite Eh in Hb. injection Hb as <-.
  rewrite (proj2 (existsb_eqb_In f (dkeys by_h)) Hin) in Hc. exact Hc.
Qed.

(** The loop over the catalog, for a record of hemisphere [h0] whose
    structure text is [sid]. *)
Lemma areas_loop (h0 : string) (sid : option string)
    (its : pydict pyval) (t t' : table) :
  for_each
    (λ t '(area, s_id),
       if id_matches s_id sid then store_fields r h0 area t else Ok t)
    t its = Ok t' →
  (∀ h, dkeys <$> dget h t' = dkeys <$> dget h t) ∧
  (Forall P (all_cells t) → Forall P (all_cells t')) ∧
  (∀ h f a, is_Some (cell t h f a) →
     if String.eqb h h0
        && existsb (λ '(a', s_id), String.eqb a' a && id_matches s_id sid) its
     then ∃ v, field_cell r f = Ok v ∧ cell t' h f a = Some v
     else cell t' h f a = cell t h f a).
Proof.
  revert t. induction its as [|[area s_id] its IH]; intros t; simpl.
  - intros [= <-]. repeat split; auto.
    intros h f a _. rewrite andb_false_r. reflexivity.
  - destruct (id_matches s_id sid) eqn:Em.
    + destruct (store_fields r h0 area t) as [t1|] eqn:Es; simpl;
        [|discriminate].
      intros Hrest. destruct (IH _ Hrest) as (Sh & HP & Hc).
      destruct (store_fields_spec _ _ _ _ Es) as (Sh1 & HP1 & Hc1).
      repeat split.
      * intros h. rewrite Sh. apply Sh1.
      * auto.
      * intros h f a Hsome. specialize (Hc1 h f a Hsome).
        assert (Hsome1 : is_Some (cell t1 h f a)).
        { destruct (String.eqb h h0 && String.eqb area a) eqn:E.
          - rewrite (String.eqb_sym a area), E in Hc1.
            destruct Hc1 as (v & _ & ->). eauto.
          - rewrite (String.eqb_sym a area), E in Hc1.
            rewrite Hc1. exact Hsome. }
        specialize (Hc h f a Hsome1).
        rewrite andb_true_r.
        destruct (String.eqb_spec h h0) as [->|Hh]; simpl in *;
          [|rewrite Hc; exact Hc1].
        destruct (existsb _ its); [rewrite orb_true_r; exact Hc|].
        rewrite orb_false_r. rewrite (String.eqb_sym area a).
        destruct (String.eqb a area); [|rewrite Hc; exact Hc1].
        destruct Hc1 as (v & Hv & Hv'). exists v. split; [exact Hv|].
        rewrite Hc. exact Hv'.
    + simpl. intros Hrest. destruct (IH _ Hrest) as (Sh & HP & Hc).
      repeat split; [exact Sh | exact HP |].
      intros h f a Hsome. rewrite andb_false_r. simpl. apply Hc, Hsome.
Qed.
End first_loop.

Section records_loop.
Variable P : string → Prop.
Hypothesis P_field : ∀ r f v, field_cell r f = Ok v → P v.
Variable areas : pydict pyval.

(** One record: the cells under its hemisphere and its areas receive
    its field values, all other cells stay. *)
Lemma store_projection_spec (r : element) (t t' : table) :
  store_projection areas t r = Ok t' →
  (∀ h, dkeys <$> dget h t' = dkeys <$> dget h t) ∧
  (Forall P (all_cells t) → Forall P (all_cells t')) ∧
  (∀ h f a, is_Some (cell t h f a) →
     if maps_to areas h a r
     then ∃ v, field_cell r f = Ok v ∧ cell t' h f a = Some v
     else cell t' h f a = cell t h f a).
Proof.
  unfold store_projection, maps_to.
  destruct (ET.find "hemisphere-id" r) as [he|];
    [|intros [= <-]; repeat split; auto].
  destruct (ET.find "structure-id" r) as [se|];
    [|intros [= <-]; repeat split; auto].
  destruct (ET.text he) as [h0|];
    [|intros [= <-]; repeat split; auto;
      intros h f a _; rewrite bool_decide_eq_false_2 by discriminate;
      reflexivity].
  destruct (contains h0 t) eqn:Ec.
  - intros Hloop.
    destruct (areas_loop P r (P_field r) _ _ _ _ _ Hloop) as (Sh & HP & Hc).
    repeat split; [exact Sh | exact HP |].
    intros h f a Hsome. specialize (Hc h f a Hsome).
    destruct (String.eqb_spec h h0) as [->|Hh].
    + rewrite bool_decide_eq_true_2 by reflexivity. exact Hc.
    + rewrite bool_decide_eq_false_2 by congruence. exact Hc.
  - intros [= <-]. repeat split; auto.
    intros h f a Hsome.
    destruct (bool_decide_reflect (Some h0 = Some h)) as [[= ->]|_];
      [|reflexivity].
    exfalso. destruct (cell_is_Some_field _ _ _ _ Hsome) as (b & Hb & _).
    unfold contains in Ec. rewrite Hb in Ec. discriminate.
Qed.

Lemma last_match_cons (h a : string) (r : element) (rs : list element) :
  last_match areas h a (r :: rs) =
  match last_match areas h a rs with
  | Some r' => Some r'
  | None => if maps_to areas h a r then Some r else None
  end.
Proof.
  unfold last_match. simpl.
  destruct (maps_to areas h a r); [|destruct (last _); reflexivity].
  destruct (List.filter (maps_to areas h a) rs) as [|x l] eqn:E;
    [reflexivity|].
  rewrite last_cons. destruct (last (x :: l)) eqn:El; [reflexivity|].
  apply last_None in El. discriminate.
Qed.

(** The whole loop: a cell holds what the last record stored under its
    hemisphere and area gives for its field, or what it held before
    when there is no such record. *)
Lemma records_loop (rs : list element) (t t' : table) :
  for_each (store_projection areas) t rs = Ok t' →
  (∀ h, dkeys <$> dget h t' = dkeys <$> dget h t) ∧
  (Forall P (all_cells t) → Forall P (all_cells t')) ∧
  (∀ h f a, is_Some (cell t h f a) →
     match last_match areas h a rs with
     | Some r => ∃ v, field_cell r f = Ok v ∧ cell t' h f a = Some v
     | None => cell t' h f a = cell t h f a
     end).
Proof.
  revert t. induction rs as [|r rs IH]; intros t; simpl.
  - intros [= <-]. repeat split; auto.
  - destruct (store_projection areas t r) as [t1|] eqn:Es; simpl;
      [|discriminate].
    intros Hrest. destruct (IH _ Hrest) as (Sh & HP & Hc).
    destruct (store_projection_spec _ _ _ Es) as (Sh1 & HP1 & Hc1).
    repeat split.
    + intros h. rewrite Sh. apply Sh1.
    + auto.
    + intros h f a Hsome. specialize (Hc1 h f a Hsome).
      assert (Hsome1 : is_Some (cell t1 h f a)).
      { destruct (maps_to areas h a r).
        - destruct Hc1 as (v & _ & ->). eauto.
        - rewrite Hc1. exact Hsome. }
      specialize (Hc h f a Hsome1). rewrite last_match_cons.
      destruct (last_match areas h a rs) as [r'|]; [exact Hc|].
      destruct (maps_to areas h a r).
      * destruct Hc1 as (v & Hv & Hv'). exists v. split; [exact Hv|].
        rewrite Hc. exact Hv'.
      * rewrite Hc. exact Hc1.
Qed.
End records_loop.

(** ** The fresh table *)

Section dict_of_facts.
Context {V : Type}.
Variable val : string → V.

Lemma dget_fold_dset (k : string) (xs : list string) (d0 : pydict V) :
  dget k (fold_left (λ d x, dset (id x) (val x) d) xs d0) =
  if existsb (String.eqb k) xs then Some (val k) else dget k d0.
Proof.
  revert d0. induction xs as [|x xs IH]; intros d0; simpl; [reflexivity|].
  rewrite IH, dget_dset. unfold id.
  destruct (existsb (String.eqb k) xs); [rewrite orb_true_r; reflexivity|].
  rewrite orb_false_r.
  destruct (String.eqb_spec k x) as [->|_]; reflexivity.
Qed.

Lemma dget_dict_of (k : string) (xs : list string) :
  dget k (dict_of id val xs) =
  if existsb (String.eqb k) xs then Some (val k) else None.
Proof. unfold dict_of. rewrite dget_fold_dset. reflexivity. Qed.

Lemma dict_of_invariant (Inv : pydict V → Prop) (xs : list string) :
  Inv [] →
  (∀ d x, Inv d → Inv (dset x (val x) d)) →
  Inv (dict_of id val xs).
Proof.
  unfold dict_of. intros H0 Hstep. generalize (@nil (string * V)) H0.
  induction xs as [|x xs IH]; intros d Hd; simpl; [exact Hd|].
  apply IH, Hstep, Hd.
Qed.
End dict_of_facts.

Lemma cell_empty_table (areas : pydict pyval) (fields : list string)
    (h f a : string) :
  In h hemisphere_ids → In f ("projection-density" :: fields) →
  In a (dkeys areas) →
  cell (empty_table areas fields) h f a = Some "0".
Proof.
  intros Hh Hf Ha. unfold cell, empty_table.
  rewrite dget_dict_of, (proj2 (existsb_eqb_In _ _) Hh). simpl.
  rewrite dget_dict_of, (proj2 (existsb_eqb_In _ _) Hf). simpl.
  rewrite dget_dict_of, (proj2 (existsb_eqb_In _ _) Ha). reflexivity.
Qed.

Lemma all_cells_empty_table (P : string → Prop) (areas : pydict pyval)
    (fields : list string) :
  P "0" → Forall P (all_cells (empty_table areas fields)).
Proof.
  intros H0. unfold empty_table.
  apply (dict_of_invariant _ (λ t, Forall P (all_cells t)));
    [constructor|].
  intros t h Ht. apply all_cells_dset; [exact Ht|].
  apply (dict_of_invariant _
           (λ b, Forall P (flat_map dvalues (dvalues b)))); [constructor|].
  intros b f Hb. apply field_cells_dset; [exact Hb|].
  apply (dict_of_invariant _ (λ d, Forall P (dvalues d))); [constructor|].
  intros d a Hd. apply dvalues_dset_Forall; assumption.
Qed.

Lemma field_cell_written (r : element) (f v : string) :
  field_cell r f = Ok v → written_cell v.
Proof.
  unfold field_cell, written_cell.
  destruct (ET.find f r) as [c|]; [|intros [= <-]; left; reflexivity].
  destruct (float_of_text (ET.text c)) as [x|]; simpl; [|discriminate].
  intros [= <-]. right. exists x. reflexivity.
Qed.

(** ** The second loop of [extract_projection_data] *)

Lemma scan_injection_spec (filename : string) (vs : list pyval)
    (st st1 : list site * bool) (r : element) (w w1 : world) :
  scan_injection filename vs st r w = (w1, Ok st1) →
  st1 = match explicit_site filename vs r with
        | Some s => (st.1 ++ [s], true)
        | None => st
        end.
Proof.
  unfold scan_injection, explicit_site, stripped_text.
  destruct (ET.find "is-injection" r) as [i|]; [|run; congruence].
  destruct (ET.find "structure-id" r) as [s|]; [|run; congruence].
  destruct (ET.find "hemisphere-id" r) as [h|]; [|run; congruence].
  destruct (ET.text i) as [ti|]; [|run; discriminate].
  destruct (ET.text s) as [ts|]; [|run; discriminate].
  destruct (ET.text h) as [th|]; [|run; discriminate].
  run. destruct (is_explicit_injection _ _ _ _); run; congruence.
Qed.

Lemma scan_loop (filename : string) (vs : list pyval) (rs : list element)
    (st st1 : list site * bool) (w w1 : world) :
  for_each_M (scan_injection filename vs) st rs w = (w1, Ok st1) →
  st1.1 = st.1 ++ omap (explicit_site filename vs) rs ∧
  st1.2 = st.2 || match omap (explicit_site filename vs) rs with
                  | [] => false
                  | _ => true
                  end.
Proof.
  revert st w. induction rs as [|r rs IH]; intros st w; simpl.
  - run. intros [= _ <-]. rewrite app_nil_r, orb_false_r. auto.
  - run. destruct (scan_injection filename vs st r w) as [w2 [st2|e]] eqn:E;
      [|discriminate].
    intros Hrest. apply scan_injection_spec in E. apply IH in Hrest as [H1 H2].
    rewrite H1, H2, E.
    destruct (explicit_site filename vs r) as [s|]; simpl.
    + rewrite <- app_assoc. split; [reflexivity|].
      rewrite orb_true_r. reflexivity.
    + auto.
Qed.

(** What a successful run of [extract_projection_data] went through. *)
Lemma extract_inv (xml_file : string) (areas : pydict pyval)
    (fields : list string) (w : world) (filename : string) (t : table)
    (sites : list site) :
  outcome (extract_projection_data xml_file areas fields) w
  = Ok (filename, t, sites) →
  ∃ root visp,
    files w !! xml_file = Some (XmlFile root) ∧
    filename = filename_of xml_file ∧
    for_each (store_projection areas) (empty_table areas fields) (records root)
    = Ok t ∧
    dget "VISp" areas = Some visp ∧
    match omap (explicit_site filename [visp]) (records root) with
    | [] => sites = [(filename,
                      verdict (stored_score t "1") (stored_score t "2"),
                      "inferred")]
    | explicit => sites = explicit
    end.
Proof.
  unfold outcome, extract_projection_data, ET_parse, getitem, filename_of,
    records.
  run. destruct (files w !! xml_file) as [[| root | |]|]; try discriminate.
  run. destruct (for_each _ _ _) as [t0|] eqn:Et; [|discriminate].
  destruct (dget "VISp" areas) as [visp|]; run; [|discriminate].
  destruct (for_each_M _ _ _ w) as [w1 [[sites0 found]|]] eqn:E;
    [|discriminate].
  apply scan_loop in E as [E1 E2]. simpl in E1, E2. subst sites0 found.
  destruct (omap _ _) as [|s l] eqn:Eo.
  - run. rewrite infer_run. run. intros [= <- <- <-].
    exists root, visp. rewrite Eo. auto.
  - run. intros [= <- <- <-].
    exists root, visp. rewrite Eo. auto.
Qed.

(** ** Success and failure of the first loop *)

Lemma last_match_In (areas : pydict pyval) (h a : string) (rs : list element)
    (r : element) :
  last_match areas h a rs = Some r → In r rs ∧ maps_to areas h a r = true.
Proof.
  unfold last_match. intros H. apply last_Some in H as [l' E].
  apply (filter_In (maps_to areas h a)). rewrite E.
  apply in_or_app. right. left. reflexivity.
Qed.

Lemma maps_to_area (areas : pydict pyval) (h a : string) (r : element) :
  maps_to areas h a r = true → In a (dkeys areas).
Proof.
  unfold maps_to.
  destruct (ET.find "hemisphere-id" r); [|discriminate].
  destruct (ET.find "structure-id" r); [|discriminate].
  intros H. apply andb_prop in H as [_ H].
  apply existsb_exists in H as ([a' s_id] & Hin & E).
  apply andb_prop in E as [E _]. apply String.eqb_eq in E as ->.
  apply (in_map fst) in Hin. exact Hin.
Qed.

(** If the loop returns, every record stored under a cell of the table
    had a value for the field of that cell. *)
Lemma records_loop_parsed (areas : pydict pyval) (rs : list element)
    (t t' : table) :
  for_each (store_projection areas) t rs = Ok t' →
  ∀ r h f a, In r rs → is_Some (cell t h f a) →
    maps_to areas h a r = true → ∃ v, field_cell r f = Ok v.
Proof.
  revert t. induction rs as [|r0 rs IH]; intros t; simpl; [tauto|].
  destruct (store_projection areas t r0) as [t1|] eqn:Es; simpl;
    [|discriminate].
  intros Hrest r h f a Hin Hsome Hm.
  destruct (store_projection_spec (λ _, True) (λ _ _ _ _, I) areas _ _ _ Es)
    as (_ & _ & Hc).
  specialize (Hc h f a Hsome).
  destruct Hin as [->|Hin].
  - rewrite Hm in Hc. destruct Hc as (v & Hv & _). eauto.
  - apply (IH _ Hrest r h f a Hin); [|exact Hm].
    destruct (maps_to areas h a r0).
    + destruct Hc as (v & _ & ->). eauto.
    + rewrite Hc. exact Hsome.
Qed.

Lemma set_cell_total (h0 f0 a0 v : string) (t : table)
    (by_h : pydict (pydict string)) :
  dget h0 t = Some by_h → In f0 (dkeys by_h) →
  ∃ t', set_cell h0 f0 a0 v t = Ok t'.
Proof.
  intros Hh Hf. apply dget_is_Some_keys in Hf as [by_f Hf].
  unfold set_cell, getitem. rewrite Hh. simpl. rewrite Hf. simpl. eauto.
Qed.

Lemma fields_loop_total (r : element) (h0 a0 : string) (fs : list string)
    (t : table) (keys : list string) :
  dkeys <$> dget h0 t = Some keys →
  (∀ f, In f fs → In f keys ∧ ∃ v, field_cell r f = Ok v) →
  ∃ t', for_each
          (λ t field, v ← field_cell r field; set_cell h0 field a0 v t) t fs
        = Ok t'.
Proof.
  revert t. induction fs as [|f0 fs IH]; intros t Hk Hfs; simpl; [eauto|].
  destruct (Hfs f0 (or_introl eq_refl)) as (Hin & v0 & Ev). rewrite Ev. simpl.
  destruct (dget h0 t) as [by_h|] eqn:Eh; [|discriminate].
  injection Hk as <-.
  destruct (set_cell_total h0 f0 a0 v0 t by_h Eh Hin) as [t1 Es].
  rewrite Es. simpl. apply IH.
  - rewrite (shape_set_cell _ _ _ _ _ _ Es h0), Eh. reflexivity.
  - intros f Hf. apply Hfs. right. exact Hf.
Qed.

Lemma store_fields_total (r : element) (h0 a0 : string) (t : table)
    (keys : list string) :
  dkeys <$> dget h0 t = Some keys →
  numeric_fields keys r →
  ∃ t', store_fields r h0 a0 t = Ok t'.
Proof.
  intros Hk Hnum. unfold store_fields, getitem.
  destruct (dget h0 t) as [by_h|] eqn:Eh; [|discriminate].
  injection Hk as <-. simpl.
  apply (fields_loop_total r h0 a0 _ t (dkeys by_h)).
  - rewrite Eh. reflexivity.
  - intros f Hf. split; [exact Hf | apply Hnum, Hf].
Qed.

Lemma areas_loop_total (r : element) (h0 : string) (sid : option string)
    (its : pydict pyval) (t : table) (keys : list string) :
  dkeys <$> dget h0 t = Some keys →
  numeric_fields keys r →
  ∃ t', for_each
          (λ t '(area, s_id),
             if id_matches s_id sid then store_fields r h0 area t else Ok t)
          t its = Ok t'.
Proof.
  intros Hk Hnum. revert t Hk.
  induction its as [|[area s_id] its IH]; intros t Hk; simpl; [eauto|].
  destruct (id_matches s_id sid); simpl; [|apply IH, Hk].
  destruct (store_fields_total r h0 area t keys Hk Hnum) as [t1 Es].
  rewrite Es. simpl. apply IH.
  destruct (store_fields_spec (λ _, True) r (λ _ _ _, I) _ _ _ _ Es)
    as (Sh & _). rewrite Sh. exact Hk.
Qed.

Lemma store_projection_total (areas : pydict pyval) (fields : list string)
    (r : element) (t : table) :
  (∀ h keys, dkeys <$> dget h t = Some keys → incl keys fields) →
  numeric_fields fields r →
  ∃ t', store_projection areas t r = Ok t'.
Proof.
  intros Hshape Hnum. unfold store_projection.
  destruct (ET.find "hemisphere-id" r) as [he|]; [|eauto].
  destruct (ET.find "structure-id" r) as [se|]; [|eauto].
  destruct (ET.text he) as [h0|]; [|eauto].
  unfold contains. destruct (dget h0 t) as [by_h|] eqn:Eh; [|eauto].
  apply (areas_loop_total r h0 _ areas t (dkeys by_h)).
  - rewrite Eh. reflexivity.
  - intros f Hf. apply Hnum. apply (Hshape h0 (dkeys by_h)); [|exact Hf].
    rewrite Eh. reflexivity.
Qed.

Lemma records_loop_total (areas : pydict pyval) (fields : list string)
    (rs : list element) (t : table) :
  (∀ h keys, dkeys <$> dget h t = Some keys → incl keys fields) →
  Forall (numeric_fields fields) rs →
  ∃ t', for_each (store_projection areas) t rs = Ok t'.
Proof.
  intros Hshape Hrs. revert t Hshape.
  induction Hrs as [|r rs Hr _ IH]; intros t Hshape; simpl; [eauto|].
  destruct (store_projection_total areas fields r t Hshape Hr) as [t1 Es].
  rewrite Es. simpl. apply IH.
  destruct (store_projection_spec (λ _, True) (λ _ _ _ _, I) areas _ _ _ Es)
    as (Sh & _).
  intros h keys. rewrite Sh. apply Hshape.
Qed.

Lemma empty_table_shape (areas : pydict pyval) (fields : list string)
    (h : string) (keys : list string) :
  dkeys <$> dget h (empty_table areas fields) = Some keys →
  incl keys ("projection-density" :: fields).
Proof.
  unfold empty_table. rewrite dget_dict_of.
  destruct (existsb (String.eqb h) hemisphere_ids); [|discriminate].
  simpl. intros [= <-] f Hf.
  apply dget_is_Some_keys in Hf as [x Hx]. rewrite dget_dict_of in Hx.
  destruct (existsb (String.eqb f) ("projection-density" :: fields)) eqn:E;
    [|discriminate].
  apply existsb_eqb_In, E.
Qed.

(** ** Success of the second loop *)

Lemma scan_injection_total (filename : string) (vs : list pyval)
    (st : list site * bool) (r : element) (w : world) :
  has_texts r →
  ∃ w1 st1, scan_injection filename vs st r w = (w1, Ok st1).
Proof.
  intros Ht. unfold scan_injection, stripped_text.
  destruct (ET.find "is-injection" r) as [i|] eqn:Ei; [|run; eauto].
  destruct (ET.find "structure-id" r) as [s|] eqn:Es; [|run; eauto].
  destruct (ET.find "hemisphere-id" r) as [h|] eqn:Eh; [|run; eauto].
  destruct (Ht "is-injection" i) as [ti ->]; [simpl; auto | exact Ei |].
  destruct (Ht "structure-id" s) as [ts ->]; [simpl; auto | exact Es |].
  destruct (Ht "hemisphere-id" h) as [th ->]; [simpl; auto | exact Eh |].
  run. destruct (is_explicit_injection _ _ _ _); run; eauto.
Qed.

Lemma scan_loop_total (filename : string) (vs : list pyval)
    (rs : list element) (st : list site * bool) (w : world) :
  Forall has_texts rs →
  ∃ w1 st1, for_each_M (scan_injection filename vs) st rs w = (w1, Ok st1).
Proof.
  intros Hrs. revert st w.
  induction Hrs as [|r rs Hr _ IH]; intros st w; simpl; [run; eauto|].
  destruct (scan_injection_total filename vs st r w Hr) as (w1 & st1 & E).
  run. rewrite E. apply IH.
Qed.

(** ** Success of [extract_projection_data] *)

Lemma extract_total (xml_file : string) (areas : pydict pyval)
    (fields : list string) (w : world) (root : element) :
  files w !! xml_file = Some (XmlFile root) →
  is_Some (dget "VISp" areas) →
  Forall (numeric_fields ("projection-density" :: fields)) (records root) →
  Forall has_texts (records root) →
  ∃ res, outcome (extract_projection_data xml_file areas fields) w = Ok res.
Proof.
  intros Hfile [visp Hvisp] Hnum Htexts.
  unfold outcome, extract_projection_data, ET_parse, getitem.
  run. rewrite Hfile. run.
  destruct (records_loop_total areas _ (records root)
              (empty_table areas fields)
              (empty_table_shape areas fields) Hnum) as [t Et].
  fold (records root). rewrite Et, Hvisp. run.
  destruct (scan_loop_total (OsPath.splitext_root (OsPath.basename xml_file))
              [visp] (records root) ([], false) w Htexts)
    as (w1 & [sites found] & Es).
  rewrite Es. destruct found; run; [eauto|].
  rewrite infer_run. run. eauto.
Qed.

(** ** The table returned by [extract_projection_data] *)

(** The cells of the returned table, for any catalog and field list. *)
Lemma extract_cells (xml_file : string) (areas : pydict pyval)
    (fields : list string) (w : world) (root : element) (filename : string)
    (t : table) (sites : list site) :
  files w !! xml_file = Some (XmlFile root) →
  outcome (extract_projection_data xml_file areas fields) w
  = Ok (filename, t, sites) →
  ∀ h f a, In h hemisphere_ids → In f ("projection-density" :: fields) →
    In a (dkeys areas) →
    match last_match areas h a (records root) with
    | Some r => ∃ v, field_cell r f = Ok v ∧ cell t h f a = Some v
    | None => cell t h f a = Some "0"
    end.
Proof.
  intros Hfile Hrun h f a Hh Hf Ha.
  apply extract_inv in Hrun as (root' & visp & Hfile' & _ & Hloop & _).
  rewrite Hfile in Hfile'. injection Hfile' as <-.
  destruct (records_loop (λ _, True) (λ _ _ _ _, I) areas _ _ _ Hloop)
    as (_ & _ & Hc).
  specialize (Hc h f a).
  rewrite (cell_empty_table areas fields h f a Hh Hf Ha) in Hc.
  apply Hc. eauto.
Qed.

(** C6. The table returned for a document has an entry for every
    hemisphere in "1", "2", "3", every measured field and every area of
    the catalog (in particular for the script's 9 fields and 13 areas),
    and the entry is exactly "0" when no record stored under that
    hemisphere and area has the field. *)
Theorem table_fully_populated (xml_file : string) (areas : pydict pyval)
    (fields : list string) (w : world) (root : element) (filename : string)
    (t : table) (sites : list site) :
  files w !! xml_file = Some (XmlFile root) →
  outcome (extract_projection_data xml_file areas fields) w
  = Ok (filename, t, sites) →
  ∀ h f a, In h hemisphere_ids → In f ("projection-density" :: fields) →
    In a (dkeys areas) →
    is_Some (cell t h f a) ∧
    ((∀ r, In r (records root) → maps_to areas h a r = true →
           ET.find f r = None) →
     cell t h f a = Some "0").
Proof.
  intros Hfile Hrun h f a Hh Hf Ha.
  pose proof (extract_cells _ _ _ _ _ _ _ _ Hfile Hrun h f a Hh Hf Ha) as Hc.
  destruct (last_match areas h a (records root)) as [r|] eqn:El.
  - destruct Hc as (v & Hv & Hcell). split; [rewrite Hcell; eauto|].
    intros Habsent. apply last_match_In in El as [Hin Hm].
    unfold field_cell in Hv. rewrite (Habsent r Hin Hm) in Hv.
    injection Hv as <-. exact Hcell.
  - split; [rewrite Hc; eauto | intros _; exact Hc].
Qed.

Lemma table_fully_populated_witness :
  match outcome (extract_projection_data "scan.xml" areas_of_interest
                   additional_fields) (one_file "scan.xml" duplicate_records)
  with
  | Ok (_, t, _) =>
      is_Some (cell t "2" "volume" "VISp") ∧
      cell t "3" "projection-density" "RSPv" = Some "0"
  | Raise _ => False
  end.
Proof.
  destruct (outcome _ _) as [[[filename t] sites]|e] eqn:E;
    [|vm_compute in E; discriminate].
  split.
  - apply (table_fully_populated "scan.xml" areas_of_interest
             additional_fields (one_file "scan.xml" duplicate_records)
             duplicate_records filename t sites eq_refl E);
      simpl; tauto.
  - apply (table_fully_populated "scan.xml" areas_of_interest
             additional_fields (one_file "scan.xml" duplicate_records)
             duplicate_records filename t sites eq_refl E);
      [simpl; tauto ..|].
    intros r [<-|[<-|[]]]; vm_compute; discriminate.
Defined.

(** C7. When several records map to the same hemisphere and area, the
    extraction does not fail for that (it returns whenever the fields are
    numeric and the stripped children have texts), and each cell of that
    hemisphere and area holds what the last such record in document order
    gives for the field: its formatted value, or "0" when it lacks the
    field. Nothing of an earlier record remains. *)
Theorem last_record_wins (xml_file : string) (areas : pydict pyval)
    (fields : list string) (w : world) (root : element) :
  files w !! xml_file = Some (XmlFile root) →
  is_Some (dget "VISp" areas) →
  Forall (numeric_fields ("projection-density" :: fields)) (records root) →
  Forall has_texts (records root) →
  ∃ filename t sites,
    outcome (extract_projection_data xml_file areas fields) w
    = Ok (filename, t, sites) ∧
    ∀ h f a r,
      In h hemisphere_ids → In f ("projection-density" :: fields) →
      last_match areas h a (records root) = Some r →
      ∃ v, field_cell r f = Ok v ∧ cell t h f a = Some v.
Proof.
  intros Hfile Hvisp Hnum Htexts.
  destruct (extract_total _ _ _ _ _ Hfile Hvisp Hnum Htexts)
    as [[[filename t] sites] Hrun].
  exists filename, t, sites. split; [exact Hrun|].
  intros h f a r Hh Hf Hlast.
  assert (Ha : In a (dkeys areas)).
  { apply last_match_In in Hlast as [_ Hm]. exact (maps_to_area _ _ _ _ Hm). }
  pose proof (extract_cells _ _ _ _ _ _ _ _ Hfile Hrun h f a Hh Hf Ha) as Hc.
  rewrite Hlast in Hc. exact Hc.
Qed.

Lemma last_record_wins_witness :
  ∃ filename t sites,
    outcome (extract_projection_data "scan.xml" areas_of_interest
               additional_fields) (one_file "scan.xml" duplicate_records)
    = Ok (filename, t, sites) ∧
    cell t "2" "volume" "VISp" = Some "2.50E+00" ∧
    cell t "2" "sum-pixels" "VISp" = Some "0".
Proof.
  destruct (last_record_wins "scan.xml" areas_of_interest additional_fields
              (one_file "scan.xml" duplicate_records) duplicate_records)
    as (filename & t & sites & Hrun & Hlast).
  - reflexivity.
  - vm_compute. eauto.
  - repeat constructor; intros f Hf; simpl in Hf;
      repeat (destruct Hf as [<-|Hf]; [vm_compute; eauto|]);
      destruct Hf.
  - repeat constructor; intros name child Hn; simpl in Hn;
      repeat (destruct Hn as [<-|Hn]; [vm_compute; intros [= <-]; eauto|]);
      destruct Hn.
  - exists filename, t, sites. split; [exact Hrun|]. split.
    + destruct (Hlast "2" "volume" "VISp"
                  (Element record_tag None
                     [leaf "hemisphere-id" "2"; leaf "structure-id" "385";
                      leaf "volume" "2.5"]))
        as (v & Hv & Hc); [simpl; tauto | simpl; tauto | reflexivity |].
      vm_compute in Hv. injection Hv as <-. exact Hc.
    + destruct (Hlast "2" "sum-pixels" "VISp"
                  (Element record_tag None
                     [leaf "hemisphere-id" "2"; leaf "structure-id" "385";
                      leaf "volume" "2.5"]))
        as (v & Hv & Hc); [simpl; tauto | simpl; tauto | reflexivity |].
      vm_compute in Hv. injection Hv as <-. exact Hc.
Defined.

(** ** Malformed fields *)

(** C2, as stated, fails: a VISp record at hemisphere "1" whose volume is
    the text "abc" makes the extraction raise [ValueError]. *)
Lemma malformed_volume_raises :
  outcome (extract_projection_data "scan.xml" areas_of_interest
             additional_fields) (one_file "scan.xml" malformed_volume)
  = Raise (ValueError "abc").
Proof. vm_compute. reflexivity. Qed.

(** C2, amended. For a record stored under a hemisphere and an area: a
    measured field whose child is absent yields "0" for the record, so
    the cell is "0" when this record is the last one stored there and the
    extraction returns; a measured field whose text is not a number (or
    is missing) makes the whole extraction raise. *)
Theorem absent_defaults_malformed_raises (xml_file : string)
    (areas : pydict pyval) (fields : list string) (w : world)
    (root r : element) (h f a : string) :
  files w !! xml_file = Some (XmlFile root) →
  In r (records root) →
  maps_to areas h a r = true →
  In h hemisphere_ids →
  In f ("projection-density" :: fields) →
  (ET.find f r = None →
   field_cell r f = Ok "0" ∧
   ∀ filename t sites,
     outcome (extract_projection_data xml_file areas fields) w
     = Ok (filename, t, sites) →
     last_match areas h a (records root) = Some r →
     cell t h f a = Some "0") ∧
  (∀ e, field_cell r f = Raise e →
     ∃ e', outcome (extract_projection_data xml_file areas fields) w
           = Raise e').
Proof.
  intros Hfile Hin Hm Hh Hf.
  pose proof (maps_to_area _ _ _ _ Hm) as Ha. split.
  - intros Habsent.
    assert (E0 : field_cell r f = Ok "0")
      by (unfold field_cell; rewrite Habsent; reflexivity).
    split; [exact E0|].
    intros filename t sites Hrun Hlast.
    pose proof (extract_cells _ _ _ _ _ _ _ _ Hfile Hrun h f a Hh Hf Ha) as Hc.
    rewrite Hlast in Hc. destruct Hc as (v & Hv & Hc).
    rewrite E0 in Hv. injection Hv as <-. exact Hc.
  - intros e He.
    destruct (outcome (extract_projection_data xml_file areas fields) w)
      as [[[filename t] sites]|e'] eqn:Hrun; [|eauto].
    exfalso.
    apply extract_inv in Hrun as (root' & visp & Hfile' & _ & Hloop & _).
    rewrite Hfile in Hfile'. injection Hfile' as <-.
    destruct (records_loop_parsed _ _ _ _ Hloop r h f a Hin) as [v Hv];
      [|exact Hm|congruence].
    rewrite (cell_empty_table areas fields h f a Hh Hf Ha). eauto.
Qed.

Lemma absent_defaults_malformed_raises_witness :
  ∃ e', outcome (extract_projection_data "scan.xml" areas_of_interest
                   additional_fields) (one_file "scan.xml" malformed_volume)
        = Raise e'.
Proof.
  refine (proj2 (absent_defaults_malformed_raises "scan.xml"
                   areas_of_interest additional_fields
                   (one_file "scan.xml" malformed_volume) malformed_volume
                   (Element record_tag None
                      [leaf "hemisphere-id" "1"; leaf "structure-id" "385";
                       leaf "volume" "abc"])
                   "1" "volume" "VISp" eq_refl _ eq_refl _ _)
                (ValueError "abc") eq_refl);
    simpl; tauto.
Defined.

(** ** Injection sites *)



(** With an integer identifier for VISp, as in the script's catalog, no
    record passes the test of the second loop: the text of a structure
    id is never equal to an [int]. *)
Lemma int_catalog_never_explicit (filename : string) (z : Z) (r : element) :
  explicit_site filename [PyInt z] r = None.
Proof.
  unfold explicit_site, is_explicit_injection.
  destruct (ET.find "is-injection" r); [|reflexivity].
  destruct (ET.find "structure-id" r); [|reflexivity].
  destruct (ET.find "hemisphere-id" r); [|reflexivity].
  destruct (ET.text _); [|reflexivity].
  destruct (ET.text _); [|reflexivity].
  destruct (ET.text _); [|reflexivity].
  simpl. rewrite andb_false_r. reflexivity.
Qed.

(** Hence every list of sites returned under such a catalog is the one
    inferred record. *)
Lemma int_catalog_always_inferred (xml_file : string) (areas : pydict pyval)
    (fields : list string) (w : world) (filename : string) (t : table)
    (sites : list site) (z : Z) :
  dget "VISp" areas = Some (PyInt z) →
  outcome (extract_projection_data xml_file areas fields) w
  = Ok (filename, t, sites) →
  sites = [(filename, verdict (stored_score t "1") (stored_score t "2"),
            "inferred")].
Proof.
  intros Hvisp Hrun.
  apply extract_inv in Hrun as (root & visp & _ & _ & _ & Hvisp' & Hs).
  rewrite Hvisp in Hvisp'. injection Hvisp' as <-.
  assert (E : ∀ rs, omap (explicit_site filename [PyInt z]) rs = []).
  { induction rs as [|r rs IH]; simpl; [reflexivity|].
    rewrite int_catalog_never_explicit. exact IH. }
  rewrite E in Hs. exact Hs.
Qed.

(** C1 fails on the script's catalog. The file that holds only a VISp
    injection record at hemisphere "1" yields no explicit record
    ("scan", "1", "385") but one inferred record, with hemisphere
    "unknown" since the table is all "0". *)
Theorem visp_injection_reported_as_inferred :
  outcome (extract_projection_data "scan.xml" areas_of_interest
             additional_fields) (one_file "scan.xml" visp_injection)
  = Ok ("scan", empty_table areas_of_interest additional_fields,
        [("scan", "unknown", "inferred")]).
Proof. vm_compute. reflexivity. Qed.

(** ** Every formatted float parses *)

Section parse_format.
Import PyStr PyFloat.

(** Facts about one character, by enumeration of the 256 characters. *)
Ltac by_enumeration c :=
  destruct c as [[] [] [] [] [] [] [] []];
  try discriminate; try reflexivity; try (intros; discriminate).

Lemma digit_not_space (c : ascii) : is_digit c = true → is_space c = false.
Proof. by_enumeration c. Qed.

Lemma digit_lower (c : ascii) : is_digit c = true → lower_ascii c = c.
Proof. by_enumeration c. Qed.

Lemma digit_not_letter (c : ascii) :
  is_digit c = true → Ascii.eqb c "i" = false ∧ Ascii.eqb c "n" = false.
Proof. by_enumeration c; split; reflexivity. Qed.

Lemma scan_sign_digit (c : ascii) (r : list ascii) :
  is_digit c = true → scan_sign (c :: r) = (false, c :: r).
Proof. by_enumeration c. Qed.

Lemma is_digit_digit_char (z : Z) : is_digit (digit_char z) = true.
Proof.
  unfold digit_char.
  assert (H : (0 <= z mod 10 < 10)%Z) by (apply Z.mod_pos_bound; lia).
  assert (E : ∃ k, (k < 10)%nat ∧ Z.to_nat (z mod 10) = k)
    by (exists (Z.to_nat (z mod 10)); split; [lia | reflexivity]).
  destruct E as (k & Hk & ->).
  do 10 (destruct k as [|k]; [reflexivity|]). lia.
Qed.

Lemma lstrip_head (c : ascii) (r : list ascii) :
  is_space c = false → lstrip (c :: r) = c :: r.
Proof. intros H. simpl. rewrite H. reflexivity. Qed.

(** Stripping leaves alone a text that starts and ends with a
    character that is no white space. *)
Lemma strip_chars_id (c c' : ascii) (l : list ascii) :
  is_space c = false → is_space c' = false →
  strip_chars (c :: l ++ [c']) = c :: l ++ [c'].
Proof.
  intros Hc Hc'. unfold strip_chars. rewrite (lstrip_head _ _ Hc).
  change (c :: l ++ [c']) with ((c :: l) ++ [c']).
  rewrite rev_app_distr. change (rev [c']) with [c']. cbn [app].
  rewrite (lstrip_head _ _ Hc').
  change (c' :: rev (c :: l)) with (rev [c'] ++ rev (c :: l)).
  rewrite <- rev_app_distr, rev_involutive. reflexivity.
Qed.

Lemma scan_digits_digit (c : ascii) (r : list ascii) (acc : Z) (n : nat) :
  is_digit c = true →
  scan_digits (c :: r) acc n
  = scan_digits r (10 * acc + digit_val c)%Z (S n).
Proof. intros H. cbn [scan_digits]. rewrite H. reflexivity. Qed.

Lemma scan_digits_all (ds : list ascii) (acc : Z) (n : nat) :
  Forall (λ c, is_digit c = true) ds →
  ∃ acc', scan_digits ds acc n = (acc', (n + length ds)%nat, []).
Proof.
  intros H. revert acc n. induction H as [|c ds Hc _ IH]; intros acc n.
  - exists acc. simpl. rewrite Nat.add_0_r. reflexivity.
  - rewrite (scan_digits_digit _ _ _ _ Hc).
    destruct (IH (10 * acc + digit_val c)%Z (S n)) as [acc' ->].
    exists acc'. simpl length. rewrite Nat.add_succ_r. reflexivity.
Qed.

(** The shape [d.ddE±d...] is a number. *)
Lemma scan_number_scientific (d1 d2 d3 es : ascii) (ex : list ascii) :
  is_digit d1 = true → is_digit d2 = true → is_digit d3 = true →
  es = "+"%char ∨ es = "-"%char →
  Forall (λ c, is_digit c = true) ex → ex ≠ [] →
  ∃ m e,
    scan_number (d1 :: "."%char :: d2 :: d3 :: "E"%char :: es :: ex)
    = Some (m, e).
Proof.
  intros H1 H2 H3 Hes Hex Hne. unfold scan_number.
  rewrite (scan_digits_digit _ _ _ _ H1). cbn [scan_digits is_digit].
  cbn [nat_of_ascii Nat.leb andb Ascii.eqb Bool.eqb].
  change (is_digit "."%char) with false. cbn iota.
  change (Ascii.eqb "." "_") with false. cbn iota.
  rewrite (scan_digits_digit _ _ _ _ H2), (scan_digits_digit _ _ _ _ H3).
  cbn [scan_digits]. change (is_digit "E"%char) with false. cbn iota.
  change (Ascii.eqb "E" "_") with false. cbn iota.
  cbn [Nat.add]. unfold scan_exponent.
  change (Ascii.eqb (lower_ascii "E") "e") with true. cbn iota.
  destruct (scan_digits_all ex 0 0 Hex) as [e He].
  destruct ex as [|x ex]; [congruence|].
  destruct Hes as [-> | ->]; cbn [scan_sign]; rewrite He;
    cbn [length Nat.add]; eauto.
Qed.
Lemma float_of_chars_scientific (neg : bool) (d1 d2 d3 es : ascii)
    (ex : list ascii) :
  is_digit d1 = true → is_digit d2 = true → is_digit d3 = true →
  es = "+"%char ∨ es = "-"%char →
  Forall (λ c, is_digit c = true) ex → ex ≠ [] →
  ∃ y,
    float_of_chars
      ((if neg then ["-"%char] else [])
       ++ d1 :: "."%char :: d2 :: d3 :: "E"%char :: es :: ex)
    = Some y.
Proof.
  intros H1 H2 H3 Hes Hex Hne.
  destruct (scan_number_scientific d1 d2 d3 es ex H1 H2 H3 Hes Hex Hne)
    as (m & e & Hnum).
  destruct (exists_last Hne) as (ex' & c' & Eex).
  assert (Hc' : is_digit c' = true).
  { rewrite Eex in Hex. apply Forall_app in Hex as [_ Hex].
    inversion Hex; assumption. }
  unfold float_of_chars.
  assert (Hstrip :
    strip_chars
      ((if neg then ["-"%char] else [])
       ++ d1 :: "."%char :: d2 :: d3 :: "E"%char :: es :: ex)
    = (if neg then ["-"%char] else [])
      ++ d1 :: "."%char :: d2 :: d3 :: "E"%char :: es :: ex).
  { rewrite Eex. destruct neg; cbn [app].
    - apply (strip_chars_id "-" c'
               (d1 :: "."%char :: d2 :: d3 :: "E"%char :: es :: ex'));
        [reflexivity | apply digit_not_space, Hc'].
    - apply (strip_chars_id d1 c'
               ("."%char :: d2 :: d3 :: "E"%char :: es :: ex'));
        apply digit_not_space; assumption. }
  rewrite Hstrip.
  destruct (digit_not_letter _ H1) as [Ei En].
  destruct neg; cbn [app];
    [cbn [scan_sign] | rewrite (scan_sign_digit _ _ H1)];
    cbn [map string_of_list_ascii String.eqb];
    rewrite (digit_lower _ H1), Ei, En; cbn [orb];
    rewrite Hnum; eauto.
Qed.

(** [float(format(x, ".2E"))] never raises. *)
Lemma format_2E_parses (x : float) :
  ∃ y, float_of_string (format_2E x) = Some y.
Proof.
  unfold format_2E.
  destruct (Prim2SF x) as [s|s| |s m e].
  1, 2: destruct s; vm_compute; eauto.
  1: vm_compute; eauto.
  destruct (scale2 (Z.pos m) 1 (- e)) as [p q].
  unfold float_of_string. rewrite list_ascii_of_string_of_list_ascii.
  unfold sci2. destruct (scale10 p q _) as [ps qs].
  destruct (rne ps qs =? 1000)%Z; unfold exponent_chars;
    match goal with
    | |- context [(?d <? 0)%Z] => destruct (d <? 0)%Z
    end;
    match goal with
    | |- context [(?a <? 100)%Z] => destruct (a <? 100)%Z
    end;
    apply float_of_chars_scientific;
    auto using is_digit_digit_char;
    try (repeat constructor; apply is_digit_digit_char);
    discriminate.
Qed.
End parse_format.

Lemma written_cell_parses (v : string) :
  written_cell v → ∃ x, float_of_cell v = Ok x.
Proof.
  unfold float_of_cell. intros [-> | [x ->]].
  - vm_compute. eauto.
  - destruct (format_2E_parses x) as [y ->]. eauto.
Qed.

(** ** The inference on extracted tables *)

Lemma map_result_total {A B : Type} (f : A → result B) (l : list A) :
  Forall (λ a, ∃ b, f a = Ok b) l → ∃ bs, map_result f l = Ok bs.
Proof.
  induction 1 as [|a l [b Hb] _ [bs IH]]; simpl; [eauto|].
  rewrite Hb. simpl. rewrite IH. simpl. eauto.
Qed.

Lemma extract_all_cells_written (xml_file : string) (areas : pydict pyval)
    (fields : list string) (w : world) (filename : string) (t : table)
    (sites : list site) :
  outcome (extract_projection_data xml_file areas fields) w
  = Ok (filename, t, sites) →
  Forall written_cell (all_cells t).
Proof.
  intros Hrun.
  apply extract_inv in Hrun as (root & visp & _ & _ & Hloop & _).
  destruct (records_loop written_cell field_cell_written areas _ _ _ Hloop)
    as (_ & HP & _).
  apply HP, all_cells_empty_table. left. reflexivity.
Qed.

Lemma cell_submap (t : table) (h f a : string) :
  is_Some (cell t h f a) → is_Some (submap t h f).
Proof.
  unfold cell, submap. destruct (dget h t) as [by_h|]; simpl;
    [|intros [? ?]; discriminate].
  destruct (dget f by_h); simpl; [eauto | intros [? ?]; discriminate].
Qed.

Lemma submap_cells (P : string → Prop) (t : table) (h f : string)
    (d : pydict string) :
  Forall P (all_cells t) → submap t h f = Some d → Forall P (dvalues d).
Proof.
  unfold submap. intros Ht.
  destruct (dget h t) as [by_h|] eqn:Eh; simpl; [|discriminate].
  intros Ef.
  exact (field_cells_entry P _ _ _ (all_cells_entry P _ _ _ Ht Eh) Ef).
Qed.

(** C9. Every cell of a table returned by [extract_projection_data] is
    "0" or a float formatted by [format(x, ".2E")], hence parses as a
    float. So, when the two fields read by the inference are among the
    measured ones, the [try] body of [infer_injection_hemisphere] does
    not raise on such a table: for hemispheres "1" and "2" the two
    sub-maps are there, all their cells parse, the stored score is the
    score of the parsed cells, and the [except] branch prints nothing. *)
Theorem extracted_table_scores_exactly (xml_file : string)
    (areas : pydict pyval) (fields : list string) (w : world)
    (filename : string) (t : table) (sites : list site) :
  outcome (extract_projection_data xml_file areas fields) w
  = Ok (filename, t, sites) →
  In "projection-volume" fields →
  In "projection-intensity" fields →
  Forall written_cell (all_cells t) ∧
  Forall (λ v, ∃ x, float_of_cell v = Ok x) (all_cells t) ∧
  ∀ h, In h ["1"; "2"] →
    ∃ vol int vs xs,
      submap t h "projection-volume" = Some vol ∧
      submap t h "projection-intensity" = Some int ∧
      map_result float_of_cell (dvalues vol) = Ok vs ∧
      map_result float_of_cell (dvalues int) = Ok xs ∧
      score_body t h = Ok (score_of vs xs) ∧
      stored_score t h = score_of vs xs ∧
      score_messages t h = [].
Proof.
  intros Hrun Hv Hi.
  pose proof (extract_all_cells_written _ _ _ _ _ _ _ Hrun) as Hw.
  assert (Hp : Forall (λ v, ∃ x, float_of_cell v = Ok x) (all_cells t)).
  { eapply Forall_impl; [exact Hw | exact written_cell_parses]. }
  split; [exact Hw|]. split; [exact Hp|].
  intros h Hh.
  assert (Hh' : In h hemisphere_ids) by (simpl in *; tauto).
  pose proof Hrun as Hinv.
  apply extract_inv in Hinv as (root & visp & Hfile & _ & _ & Hvisp & _).
  assert (Ha : In "VISp" (dkeys areas))
    by (apply dget_is_Some_keys; eauto).
  assert (Hsub : ∀ f, In f fields → is_Some (submap t h f)).
  { intros f Hf. apply (cell_submap t h f "VISp").
    pose proof (extract_cells _ _ _ _ _ _ _ _ Hfile Hrun h f "VISp" Hh'
                  (or_intror Hf) Ha) as Hc.
    destruct (last_match _ _ _ _) as [r|].
    - destruct Hc as (v & _ & ->). eauto.
    - rewrite Hc. eauto. }
  destruct (Hsub _ Hv) as [vol Evol]. destruct (Hsub _ Hi) as [int Eint].
  destruct (map_result_total float_of_cell (dvalues vol)
              (submap_cells _ _ _ _ _ Hp Evol)) as [vs Evs].
  destruct (map_result_total float_of_cell (dvalues int)
              (submap_cells _ _ _ _ _ Hp Eint)) as [xs Exs].
  exists vol, int, vs, xs.
  pose proof (stored_score_parsed _ _ _ _ _ _ Evol Eint Evs Exs) as Hs.
  unfold stored_score, score_messages. rewrite Hs. auto 10.
Qed.

Lemma extracted_table_scores_exactly_witness :
  match outcome (extract_projection_data "scan.xml" areas_of_interest
                   additional_fields) (one_file "scan.xml" duplicate_records)
  with
  | Ok (_, t, _) =>
      Forall written_cell (all_cells t) ∧
      score_messages t "1" = [] ∧ score_messages t "2" = []
  | Raise _ => False
  end.
Proof.
  destruct (outcome _ _) as [[[filename t] sites]|e] eqn:E;
    [|vm_compute in E; discriminate].
  destruct (extracted_table_scores_exactly _ _ _ _ _ _ _ E)
    as (Hw & _ & Hs); [simpl; tauto | simpl; tauto |].
  split; [exact Hw|].
  destruct (Hs "1") as (? & ? & ? & ? & _ & _ & _ & _ & _ & _ & H1);
    [simpl; tauto|].
  destruct (Hs "2") as (? & ? & ? & ? & _ & _ & _ & _ & _ & _ & H2);
    [simpl; tauto|].
  split; assumption.
Defined.

Lemma infer_noninterference_witness :
  outcome (infer_injection_hemisphere intensity_outweighs) empty_world
  = outcome (infer_injection_hemisphere intensity_outweighs_padded)
      data_world.
Proof.
  apply (infer_noninterference intensity_outweighs
           intensity_outweighs_padded empty_world data_world);
    reflexivity.
Defined.

(** ** [process_xml_files] *)

Lemma write_row_run (path : string) (row : list string) (w : world) :
  not_directory w path →
  write_row path row w
  = (World (<[path := CsvFile [row]]> (files w)) (stdout w), Ok tt).
Proof.
  unfold not_directory, write_row. intros H.
  destruct (files w !! path) as [[entries| | |]|] eqn:E; try reflexivity.
  destruct (H entries). reflexivity.
Qed.

(** One header loop: every path of the dictionary holds the header
    afterwards, every other path is as before, nothing is printed. *)
Lemma header_loop (hdr : list string) (its : pydict string) (w : world) :
  (∀ p, In p (dvalues its) → not_directory w p) →
  ∃ w1,
    for_each_M (λ _ '(field, path), write_row path hdr) tt its w
    = (w1, Ok tt) ∧
    stdout w1 = stdout w ∧
    ∀ p, files w1 !! p =
         if existsb (String.eqb p) (dvalues its) then Some (CsvFile [hdr])
         else files w !! p.
Proof.
  revert w. induction its as [|[f p0] its IH]; intros w Hnd.
  - exists w. cbn [for_each_M]. run. auto.
  - cbn [for_each_M]. run.
    rewrite (write_row_run p0 hdr w) by (apply Hnd; left; reflexivity).
    destruct (IH (World (<[p0 := CsvFile [hdr]]> (files w)) (stdout w)))
      as (w1 & Hrun & Hout & Hfiles).
    { intros p Hp entries. cbn [files].
      destruct (decide (p = p0)) as [->|Hne].
      - rewrite lookup_insert_eq. discriminate.
      - rewrite lookup_insert_ne by congruence. apply Hnd. right. exact Hp. }
    exists w1. split; [exact Hrun|]. split; [exact Hout|].
    intros p. rewrite Hfiles. cbn [files dvalues map existsb snd].
    fold (dvalues its).
    destruct (existsb (String.eqb p) (dvalues its));
      [rewrite orb_true_r; reflexivity|].
    rewrite orb_false_r. destruct (String.eqb_spec p p0) as [->|Hne].
    + apply lookup_insert_eq.
    + apply lookup_insert_ne. congruence.
Qed.

Lemma In_dset {V : Type} (k k' : string) (v v' : V) (d : pydict V) :
  In (k', v') (dset k v d) → (k', v') = (k, v) ∨ In (k', v') d.
Proof.
  induction d as [|[k0 v0] d IH]; simpl.
  - intros [H|[]]. left. congruence.
  - destruct (String.eqb_spec k k0) as [->|Hne]; simpl.
    + intros [H|H]; [left; congruence | right; right; exact H].
    + intros [H|H]; [right; left; exact H|].
      destruct (IH H); [left | right; right]; assumption.
Qed.

Lemma In_fold_dset {V : Type} (val : string → V) (xs : list string)
    (d0 : pydict V) (k : string) (v : V) :
  In (k, v) (fold_left (λ d x, dset (id x) (val x) d) xs d0) →
  (v = val k ∧ In k xs) ∨ In (k, v) d0.
Proof.
  revert d0. induction xs as [|x xs IH]; intros d0; simpl; [auto|].
  intros H. apply IH in H as [[-> H]|H]; [auto|].
  apply In_dset in H as [[= -> ->]|H]; auto.
Qed.

Lemma In_dict_of {V : Type} (val : string → V) (xs : list string)
    (k : string) (v : V) :
  In (k, v) (dict_of id val xs) → v = val k ∧ In k xs.
Proof.
  unfold dict_of. intros H. apply In_fold_dset in H as [H|[]]. exact H.
Qed.

Lemma dvalues_dict_of {V : Type} (val : string → V) (xs : list string)
    (v : V) :
  In v (dvalues (dict_of id val xs)) ↔ ∃ k, In k xs ∧ v = val k.
Proof.
  split.
  - intros H. apply in_map_iff in H as ([k v'] & <- & H).
    apply In_dict_of in H as [-> H]. eauto.
  - intros (k & Hk & ->). apply (dget_Some_values k).
    rewrite dget_dict_of, (proj2 (existsb_eqb_In _ _) Hk). reflexivity.
Qed.

(** *** Paths *)

Lemma append_inj_r (a b c : string) :
  (a ++ b)%string = (a ++ c)%string → b = c.
Proof. induction a as [|x a IH]; simpl; [auto | intros [= H]; auto]. Qed.

Lemma append_assoc_string (a b c : string) :
  ((a ++ b) ++ c)%string = (a ++ (b ++ c))%string.
Proof.
  induction a as [|x a IH]; [reflexivity|].
  change (String x ((a ++ b) ++ c) = String x (a ++ (b ++ c)))%string.
  rewrite IH. reflexivity.
Qed.

(** Joining a name that starts with the letter "o" prepends something
    that depends on the directory only. *)
Lemma join_prefix (directory : string) :
  ∃ prefix, ∀ name,
    OsPath.join directory (String "o" name)
    = (prefix ++ String "o" name)%string.
Proof.
  unfold OsPath.join.
  destruct (String.eqb directory EmptyString || PyStr.endswith directory "/").
  - exists directory. reflexivity.
  - exists (directory ++ "/")%string. intros name.
    rewrite append_assoc_string. reflexivity.
Qed.

Lemma injection_path_not_hemisphere_file (output_directory : string)
    (fields : list string) :
  ¬ In (injection_path output_directory)
      (hemisphere_files output_directory fields).
Proof.
  unfold hemisphere_files, injection_path. intros H.
  apply in_flat_map in H as (h & _ & H).
  apply in_map_iff in H as (f & H & _).
  destruct (join_prefix output_directory) as [prefix Hj].
  change (output_name h f)
    with (String "o" ("utput_hemisphere_" ++ h ++ "_" ++ f ++ ".csv")%string)
    in H.
  change "output_injection_sites.csv"
    with (String "o" "utput_injection_sites.csv") in H.
  rewrite !Hj in H. apply append_inj_r in H. cbv in H. discriminate.
Qed.

Lemma hemisphere_files_values (output_directory : string)
    (fields : list string) (p : string) :
  In p (hemisphere_files output_directory fields) ↔
  ∃ h by_h,
    In h hemisphere_ids ∧
    dget h (output_paths output_directory fields) = Some by_h ∧
    In p (dvalues by_h).
Proof.
  unfold hemisphere_files, output_paths. rewrite in_flat_map. split.
  - intros (h & Hh & Hp). exists h. eexists. split; [exact Hh|].
    rewrite dget_dict_of, (proj2 (existsb_eqb_In _ _) Hh).
    split; [reflexivity|].
    apply dvalues_dict_of. apply in_map_iff in Hp as (f & <- & Hf). eauto.
  - intros (h & by_h & Hh & Hget & Hp). exists h. split; [exact Hh|].
    rewrite dget_dict_of, (proj2 (existsb_eqb_In _ _) Hh) in Hget.
    injection Hget as <-.
    apply dvalues_dict_of in Hp as (f & Hf & ->).
    apply in_map_iff. eauto.
Qed.

(** The header phase: every output file is created or truncated and holds
    its header row; nothing else changes and nothing is printed. *)
Lemma write_headers_run (output_directory : string)
    (areas : pydict pyval) (fields : list string) (w : world) :
  (∀ p, In p (output_files output_directory fields) → not_directory w p) →
  ∃ w1,
    write_headers (output_paths output_directory fields)
      (injection_path output_directory) areas w = (w1, Ok tt) ∧
    stdout w1 = stdout w ∧
    files w1 !! injection_path output_directory
    = Some (CsvFile [injection_header]) ∧
    (∀ p, In p (hemisphere_files output_directory fields) →
          files w1 !! p = Some (CsvFile [header_row areas])) ∧
    (∀ p, ¬ In p (output_files output_directory fields) →
          files w1 !! p = files w !! p).
Proof.
  intros Hnd.
  pose proof (hemisphere_files_values output_directory fields) as Hval.
  pose proof (injection_path_not_hemisphere_file output_directory fields)
    as Hinj.
  unfold output_files in *. unfold write_headers.
  remember (output_paths output_directory fields) as paths eqn:Ep.
  assert (Hkeys : dkeys paths = ["1"; "2"; "3"]) by (subst; reflexivity).
  rewrite Hkeys. cbn [for_each_M].
  assert (Hget : ∀ h, In h hemisphere_ids → ∃ by_h, dget h paths = Some by_h).
  { intros h Hh. subst paths. unfold output_paths.
    rewrite dget_dict_of, (proj2 (existsb_eqb_In _ _) Hh). eauto. }
  destruct (Hget "1") as [d1 E1]; [simpl; tauto|].
  destruct (Hget "2") as [d2 E2]; [simpl; tauto|].
  destruct (Hget "3") as [d3 E3]; [simpl; tauto|].
  assert (Hin : ∀ h d p, In h hemisphere_ids → dget h paths = Some d →
                  In p (dvalues d) →
                  In p (hemisphere_files output_directory fields)).
  { intros h d p Hh Hd Hp. apply Hval. eauto. }
  destruct (header_loop (header_row areas) d1 w) as (w1 & R1 & O1 & F1).
  { intros p Hp. apply Hnd, in_or_app. left.
    apply (Hin "1" d1); [simpl; tauto | exact E1 | exact Hp]. }
  assert (Keep : ∀ (u v : world) (d : pydict string),
    (∀ p, In p (output_files output_directory fields) → not_directory u p) →
    (∀ p, files v !! p =
          if existsb (String.eqb p) (dvalues d)
          then Some (CsvFile [header_row areas]) else files u !! p) →
    ∀ p, In p (output_files output_directory fields) → not_directory v p).
  { intros u v d Hu Hv p Hp entries. rewrite Hv.
    destruct (existsb _ _); [discriminate | apply Hu, Hp]. }
  unfold output_files in Keep.
  pose proof (Keep _ _ _ Hnd F1) as Hnd1.
  destruct (header_loop (header_row areas) d2 w1) as (w2 & R2 & O2 & F2).
  { intros p Hp. apply Hnd1, in_or_app. left.
    apply (Hin "2" d2); [simpl; tauto | exact E2 | exact Hp]. }
  pose proof (Keep _ _ _ Hnd1 F2) as Hnd2.
  destruct (header_loop (header_row areas) d3 w2) as (w3 & R3 & O3 & F3).
  { intros p Hp. apply Hnd2, in_or_app. left.
    apply (Hin "3" d3); [simpl; tauto | exact E3 | exact Hp]. }
  pose proof (Keep _ _ _ Hnd2 F3) as Hnd3.
  unfold getitem. run. rewrite E1. run. rewrite R1. run.
  rewrite E2. run. rewrite R2. run. rewrite E3. run. rewrite R3. run.
  rewrite (write_row_run _ _ w3)
    by (apply Hnd3, in_or_app; right; left; reflexivity).
  eexists. split; [reflexivity|]. cbn [files stdout].
  split; [congruence|]. split; [apply lookup_insert_eq|].
  assert (Hall : ∀ p,
    files w3 !! p =
    if existsb (String.eqb p) (dvalues d1 ++ dvalues d2 ++ dvalues d3)
    then Some (CsvFile [header_row areas]) else files w !! p).
  { intros p. rewrite F3, F2, F1, !existsb_app.
    destruct (existsb (String.eqb p) (dvalues d3)); [rewrite !orb_true_r; reflexivity|].
    destruct (existsb (String.eqb p) (dvalues d2)); [rewrite orb_true_r; reflexivity|].
    rewrite !orb_false_r. reflexivity. }
  assert (Hmem : ∀ p,
    In p (hemisphere_files output_directory fields) ↔
    In p (dvalues d1 ++ dvalues d2 ++ dvalues d3)).
  { intros p. rewrite !in_app_iff. split.
    - intros H. apply Hval in H as (h & d & Hh & Hd & Hp).
      destruct Hh as [<-|[<-|[<-|[]]]]; rewrite Hd in *.
      + injection E1 as <-. tauto.
      + injection E2 as <-. tauto.
      + injection E3 as <-. tauto.
    - intros [H|[H|H]];
        [apply (Hin "1" d1) | apply (Hin "2" d2) | apply (Hin "3" d3)];
        simpl; tauto. }
  split.
  - intros p Hp. rewrite lookup_insert_ne by (intros <-; contradiction).
    rewrite Hall.
    rewrite (proj2 (existsb_eqb_In _ _) (proj1 (Hmem p) Hp)). reflexivity.
  - intros p Hp.
    rewrite lookup_insert_ne
      by (intros <-; apply Hp, in_or_app; right; left; reflexivity).
    rewrite Hall.
    destruct (existsb (String.eqb p) _) eqn:E; [|reflexivity].
    exfalso. apply Hp, in_or_app. left.
    apply Hmem, existsb_eqb_In, E.
Qed.

(** C8. If the input directory does not exist, [process_xml_files]
    prints the error and returns with the files of the world unchanged:
    no output file is created or written. Existence is all that is
    checked: a path that exists without being a directory makes
    [os.listdir] raise. When the directory exists (and the output
    directory too, with no output path naming a directory, so that every
    [open] succeeds), the 27 hemisphere and field files and the injection
    sites file are created or truncated and hold exactly their header
    row, with no other file touched and nothing printed, before the loop
    over the XML files starts: the rest of the run is that loop and the
    manifest, run from this state. *)
Theorem missing_directory_aborts_headers_first (directory output_directory : string)
    (areas : pydict pyval) (fields : list string) (w : world) :
  (files w !! directory = None →
   process_xml_files directory output_directory areas fields w
   = (World (files w) (stdout w ++ [MsgNoDirectory directory]), Ok tt)) ∧
  (∀ node, files w !! directory = Some node →
     (∀ entries, node ≠ Directory entries) →
     process_xml_files directory output_directory areas fields w
     = (w, Raise (NotADirectoryError directory))) ∧
  (∀ entries entries',
     files w !! directory = Some (Directory entries) →
     files w !! output_directory = Some (Directory entries') →
     (∀ p, In p (output_files output_directory fields) → not_directory w p) →
     ∃ w1,
       stdout w1 = stdout w ∧
       files w1 !! injection_path output_directory
       = Some (CsvFile [injection_header]) ∧
       (∀ p, In p (hemisphere_files output_directory fields) →
             files w1 !! p = Some (CsvFile [header_row areas])) ∧
       (∀ p, ¬ In p (output_files output_directory fields) →
             files w1 !! p = files w !! p) ∧
       process_xml_files directory output_directory areas fields w
       = process_listing directory output_directory areas fields entries w1).
Proof.
  unfold process_xml_files, path_exists, listdir. repeat split.
  - intros Hnone. run. rewrite Hnone.
    rewrite bool_decide_eq_false_2 by (intros [? ?]; discriminate).
    cbn [negb]. run. reflexivity.
  - intros node Hnode Hnd. run. rewrite Hnode.
    rewrite bool_decide_eq_true_2 by eauto. cbn [negb]. run.
    rewrite Hnode. destruct node; try reflexivity.
    destruct (Hnd entries). reflexivity.
  - intros entries entries' Hdir _ Hnd.
    destruct (write_headers_run output_directory areas fields w Hnd)
      as (w1 & Hrun & Hout & Hinj & Hhem & Hother).
    exists w1. repeat split; try assumption.
    run. rewrite ?Hdir. rewrite ?bool_decide_eq_true_2 by eauto.
    cbn [negb]. run. rewrite Hdir. run. rewrite Hrun. reflexivity.
Qed.

Lemma missing_directory_aborts_headers_first_witness :
  process_xml_files "data" "data" areas_of_interest additional_fields
    empty_world
  = (World ∅ [MsgNoDirectory "data"], Ok tt) ∧
  ∃ w1,
    files w1 !! "data/output_injection_sites.csv"
    = Some (CsvFile [injection_header]) ∧
    files w1 !! "data/output_hemisphere_3_volume.csv"
    = Some (CsvFile [header_row areas_of_interest]) ∧
    files w1 !! "data/scan.xml" = files data_world !! "data/scan.xml" ∧
    process_xml_files "data" "data" areas_of_interest additional_fields
      data_world
    = process_listing "data" "data" areas_of_interest additional_fields
        ["scan.xml"; "notes.txt"] w1.
Proof.
  destruct (missing_directory_aborts_headers_first "data" "data"
              areas_of_interest additional_fields empty_world)
    as (Hmissing & _ & _).
  split; [apply Hmissing; reflexivity|].
  destruct (missing_directory_aborts_headers_first "data" "data"
              areas_of_interest additional_fields data_world)
    as (_ & _ & Hpresent).
  destruct (Hpresent ["scan.xml"; "notes.txt"] ["scan.xml"; "notes.txt"])
    as (w1 & _ & Hinj & Hhem & Hother & Hrest);
    [reflexivity | reflexivity | |].
  - intros p Hp entries. vm_compute in Hp.
    repeat (destruct Hp as [<-|Hp]; [vm_compute; discriminate|]).
    destruct Hp.
  - exists w1. split; [exact Hinj|]. split.
    + apply Hhem. vm_compute. tauto.
    + split; [|exact Hrest]. apply Hother. vm_compute.
      intros Hp.
      repeat (destruct Hp as [Hp|Hp]; [discriminate Hp|]).
      destruct Hp.
Defined.
